(** * dashboard-sync.py: a verified model of the Grafana dashboard provisioner

    The script [ops/docker/scripts/dashboard-sync.py] checks that an
    administrative credential is present in the environment, checks that the
    directory [/grafana-dashboards] is usable, and then, for each entry of a
    fixed list of dashboard descriptors, downloads a document, rewrites three
    literal tokens in it and stores the result in a file.

    The development has three layers:
    - the Python library functions the script calls ([str.replace],
      [bytes.decode], [str.format], [os.path.join], ...), as total functions
      on sequences of code points;
    - the script itself, in a small state-and-exception monad over a world
      made of a file system, a log of observable events and the answers of
      the network and of the disk;
    - the properties of the specification, proved about the script. *)

From Stdlib Require Import Strings.String Strings.Ascii Strings.Byte NArith ZArith.
From stdpp Require Import base option list gmap.

Open Scope list_scope.

(** ** Python strings *)

(** A Python [str] is a sequence of Unicode code points and a [bytes] object a
    sequence of bytes. *)
Definition codepoint := N.
Definition str := list codepoint.
Definition bytes := list byte.

(** The code points of an ASCII literal of the source. *)
Definition py (s : string) : str :=
  List.map N_of_ascii (list_ascii_of_string s).

(** The bytes of an ASCII literal, as a server would send them. *)
Definition ascii_bytes (s : string) : bytes :=
  List.map byte_of_ascii (list_ascii_of_string s).

Section Sequences.
Context {A : Type} `{EqDecision A}.

(** [s.startswith(p)]. *)
Fixpoint startswith (p s : list A) : bool :=
  match p, s with
  | [], _ => true
  | _ :: _, [] => false
  | a :: p', b :: s' => if decide (a = b) then startswith p' s' else false
  end.

(** [s.endswith(p)]. *)
Definition endswith (p s : list A) : bool :=
  startswith (rev p) (rev s).

(** The scan of [s.replace(old, new)] for a non-empty [old]: from left to
    right, an occurrence of [old] at the current position is replaced by
    [new] and the scan resumes after it, so the occurrences replaced do not
    overlap. [skip] counts the items of the current occurrence that are
    still to be passed over. *)
Fixpoint replace_scan (old new : list A) (skip : nat) (s : list A) : list A :=
  match s with
  | [] => []
  | c :: t =>
      match skip with
      | S k => replace_scan old new k t
      | O =>
          if startswith old s
          then new ++ replace_scan old new (length old - 1) t
          else c :: replace_scan old new 0 t
      end
  end.

(** [s.replace(old, new)]. With an empty [old], Python puts [new] before
    every item and at the end. *)
Definition replace (old new s : list A) : list A :=
  match old with
  | [] => new ++ flat_map (fun c => c :: new) s
  | _ :: _ => replace_scan old new 0 s
  end.

(** [x in s] for a single item. *)
Definition contains (x : A) (s : list A) : bool :=
  existsb (fun y => bool_decide (x = y)) s.
End Sequences.

(** ** [bytes.decode('utf-8')] *)

(** The strict UTF-8 decoder: shortest form only, no surrogates, nothing above
    U+10FFFF. [utf8_lead] gives, for a leading byte, the number of
    continuation bytes, the payload bits of the leading byte and the least
    code point that needs that many bytes. *)
Definition utf8_lead (b : N) : option (nat * N * N) :=
  if (b <? 0x80)%N then Some (0, b, 0%N)
  else if (b <? 0xC0)%N then None
  else if (b <? 0xE0)%N then Some (1, (b - 0xC0)%N, 0x80%N)
  else if (b <? 0xF0)%N then Some (2, (b - 0xE0)%N, 0x800%N)
  else if (b <? 0xF8)%N then Some (3, (b - 0xF0)%N, 0x10000%N)
  else None.

Definition utf8_scalar (least cp : N) : bool :=
  (least <=? cp)%N && (cp <=? 0x10FFFF)%N
  && negb ((0xD800 <=? cp)%N && (cp <=? 0xDFFF)%N).

(** [pending] continuation bytes are still expected for the code point whose
    bits so far are [acc]. *)
Fixpoint utf8_scan (pending : nat) (acc least : N) (bs : bytes) : option str :=
  match bs with
  | [] => match pending with O => Some [] | S _ => None end
  | b :: rest =>
      let n := Byte.to_N b in
      match pending with
      | O =>
          match utf8_lead n with
          | Some (O, cp, _) => cons cp <$> utf8_scan 0 0%N 0%N rest
          | Some (S k, bits, lo) => utf8_scan (S k) bits lo rest
          | None => None
          end
      | S k =>
          if (0x80 <=? n)%N && (n <? 0xC0)%N then
            let acc' := (acc * 64 + (n - 0x80))%N in
            match k with
            | O =>
                if utf8_scalar least acc'
                then cons acc' <$> utf8_scan 0 0%N 0%N rest
                else None
            | S _ => utf8_scan k acc' least rest
            end
          else None
      end
  end.

(** [b.decode('utf-8')]: [None] stands for [UnicodeDecodeError]. *)
Definition utf8_decode (b : bytes) : option str := utf8_scan 0 0%N 0%N b.

(** ** [os.path.join] and [str.format] *)

(** [posixpath.join(a, b)]: an absolute [b] discards [a]; otherwise the two
    are joined with exactly one separator between them. *)
Definition os_path_join (a b : str) : str :=
  if startswith (py "/") b then b
  else if bool_decide (a = []) || endswith (py "/") a then a ++ b
  else a ++ py "/" ++ b.

(** Python exceptions the script can meet. [SystemExit] carries the status
    given to [sys.exit]. *)
Inductive exn :=
  | NameError (name : string)
  | SystemExit (status : Z)
  | ValueError
  | IndexError
  | URLError
  | UnicodeDecodeError
  | IsADirectoryError
  | PermissionError
  | OSError.

Definition lbrace : codepoint := 123%N.
Definition rbrace : codepoint := 125%N.

(** [template.format(args...)] for string arguments. Doubled braces stand for
    one brace, [{}] takes the next argument, a brace alone is a [ValueError]
    and a missing argument an [IndexError]. Named, numbered and formatted
    fields are not part of this model and are reported as [ValueError]; the
    script's template has no brace at all. *)
Fixpoint str_format (template : str) (args : list str) : exn + str :=
  match template with
  | [] => inr []
  | c :: t1 =>
      if bool_decide (c = lbrace) then
        match t1 with
        | c2 :: t2 =>
            if bool_decide (c2 = lbrace) then
              sum_map id (cons lbrace) (str_format t2 args)
            else if bool_decide (c2 = rbrace) then
              match args with
              | a :: args' => sum_map id (app a) (str_format t2 args')
              | [] => inl IndexError
              end
            else inl ValueError
        | [] => inl ValueError
        end
      else if bool_decide (c = rbrace) then
        match t1 with
        | c2 :: t2 =>
            if bool_decide (c2 = rbrace) then
              sum_map id (cons rbrace) (str_format t2 args)
            else inl ValueError
        | [] => inl ValueError
        end
      else sum_map id (cons c) (str_format t1 args)
  end.

(** ** The world of a run *)

(** A path of the file system names a regular file, with its content, or a
    directory; [writable] says whether the current process may write to it.
    Paths are told apart as strings: there are no links, and a name is not
    normalised, so that two strings which an operating system resolves to
    one file are two files here. The content of a file is the text written,
    not its bytes. *)
Inductive node :=
  | File (writable : bool) (content : str)
  | Dir (writable : bool).

(** What an observer of the process sees, in order. *)
Inductive event :=
  | Print (line : str)
  | HttpGet (url : str)
  | OpenW (path : str)
  | WriteData (path : str) (data : str).

(** The answer of the network to a request: a failure (no connection, an HTTP
    error status, a broken transfer) or the body of the response. A failure
    stands for whatever makes line 31 or line 32 raise; the script tells
    none of these apart, and [URLError] is the exception that stands for
    them. *)
Inductive fetch_outcome :=
  | FetchError
  | Body (b : bytes).

(** The fate of a file opened for writing, for causes outside the file system
    modelled here (a full disk, an I/O error, an encoding the text does not
    fit in): the open fails, or the write fails after [written] items, or all
    goes well. [OSError] stands for the exception of such a failure, whatever
    its class. *)
Inductive disk_outcome :=
  | DiskOk
  | OpenFails
  | WriteFails (written : nat).

(** The surroundings of a run, which the script reads but does not change:
    the process environment, the answer to the n-th request of the run, and
    the fate of the n-th file opened. *)
Record Env := {
  environ : gmap str str;
  net : nat -> str -> fetch_outcome;
  disk : nat -> disk_outcome
}.

(** The state a run changes. *)
Record World := {
  fs : gmap str node;
  trace : list event;
  requests : nat;
  opens : nat
}.

Definition start (files : gmap str node) : World :=
  {| fs := files; trace := []; requests := 0; opens := 0 |}.

Definition log (e : event) (w : World) : World :=
  {| fs := fs w; trace := trace w ++ [e];
     requests := requests w; opens := opens w |}.

Definition set_fs (files : gmap str node) (w : World) : World :=
  {| fs := files; trace := trace w;
     requests := requests w; opens := opens w |}.

(** ** Statements: state and exceptions *)

Inductive result (A : Type) :=
  | Return (a : A)
  | Raise (e : exn).
Arguments Return {A} a.
Arguments Raise {A} e.

Definition Py (A : Type) : Type := World -> result A * World.

Definition ret {A} (a : A) : Py A := fun w => (Return a, w).

Definition raise {A} (e : exn) : Py A := fun w => (Raise e, w).

Definition bind {A B} (m : Py A) (k : A -> Py B) : Py B :=
  fun w =>
    match m w with
    | (Return a, w') => k a w'
    | (Raise e, w') => (Raise e, w')
    end.

Notation "x <- m ;; k" := (bind m (fun x => k))
  (at level 100, m at next level, right associativity).
Notation "m ;;; k" := (bind m (fun _ => k))
  (at level 100, right associativity).

(** [if c: body], with no [else]. *)
Definition when (c : bool) (body : Py unit) : Py unit :=
  if c then body else ret tt.

(** [for x in l: body x]. *)
Fixpoint for_each {A} (l : list A) (body : A -> Py unit) : Py unit :=
  match l with
  | [] => ret tt
  | x :: rest => body x ;;; for_each rest body
  end.

(** The exit status of the interpreter: 0 when the script runs to its end,
    the low byte of the argument of [sys.exit] when [SystemExit] reaches the
    top level, and 1 after the traceback of any other exception. *)
Definition exit_status (r : result unit) : Z :=
  match r with
  | Return _ => 0
  | Raise (SystemExit n) => Z.land n 255
  | Raise _ => 1
  end.

(** ** The data of the script *)

(** One entry of [dashboard_list]. *)
Record dashboard := {
  name : str;
  filename : str;
  url : str;
  replacement : str
}.

(** The two entries of the list, in order. *)
Definition geth_eth : dashboard :=
  {| name := py "Geth Dashboard Ethereum";
     filename := py "single_geth_eth.json";
     url := py "https://grafana.com/api/dashboards/13877/revisions/1/download";
     replacement := py "InfluxDB_eth" |}.

Definition geth_opt : dashboard :=
  {| name := py "Geth Dashboard Optimism";
     filename := py "single_geth_opt.json";
     url := py "https://grafana.com/api/dashboards/13877/revisions/1/download";
     replacement := py "InfluxDB" |}.

Definition dashboard_list : list dashboard := [geth_eth; geth_opt].

Definition dashboard_path : str := py "/grafana-dashboards".

(** Lines 34 to 36: the three replacements, each applied to the result of the
    one before. *)
Definition substitute (d : dashboard) (decoded_html : str) : str :=
  let data := replace (py "${DS_INFLUXDB}") (replacement d) decoded_html in
  let data := replace (py "Geth Dashboard") (name d) data in
  let data := replace (py "QC1Arp5Wk") (py "QC1Arp5Wk" ++ replacement d) data in
  data.

(** The file a descriptor is written to (line 37). *)
Definition destination (d : dashboard) : str :=
  os_path_join dashboard_path (filename d).

(** The names bound in the module when a gate is reached: the two imports and
    the three assignments. The built-in names hold no [sys]. *)
Definition module_names : list string :=
  ["os"; "urllib"; "dashboard_list"; "dashboard_path";
   "GF_SECURITY_ADMIN_PASSWORD"]%string.

(** ** The library calls of the script *)

Section Script.
Variable E : Env.

(** [os.environ.get(key)]: [None] when the variable is not set. *)
Definition os_environ_get (key : str) : Py (option str) :=
  ret (environ E !! key).

(** [os.path.exists(path)]. *)
Definition os_path_exists (path : str) : Py bool :=
  fun w => (Return (bool_decide (is_Some (fs w !! path))), w).

(** [os.path.isdir(path)]. *)
Definition os_path_isdir (path : str) : Py bool :=
  fun w =>
    (Return match fs w !! path with Some (Dir _) => true | _ => false end, w).

(** [os.access(path, os.W_OK)]. *)
Definition os_access_W_OK (path : str) : Py bool :=
  fun w =>
    (Return match fs w !! path with
            | Some (Dir wr) | Some (File wr _) => wr
            | None => false
            end, w).

(** [print(line)]. *)
Definition print (line : str) : Py unit :=
  fun w => (Return tt, log (Print line) w).

(** [urllib.request.urlopen(url)] sends the request; the object it returns
    holds the body that [read] gives back. *)
Definition urlopen (url : str) : Py bytes :=
  fun w =>
    let w' := {| fs := fs w; trace := trace w ++ [HttpGet url];
                 requests := S (requests w); opens := opens w |} in
    match net E (requests w) url with
    | FetchError => (Raise URLError, w')
    | Body b => (Return b, w')
    end.

Definition read (f : bytes) : bytes := f.

(** [response.decode('utf-8')]. *)
Definition decode_utf8 (response : bytes) : Py str :=
  match utf8_decode response with
  | Some text => ret text
  | None => raise UnicodeDecodeError
  end.

(** An open file: its path and the rank of its opening in the run. *)
Record handle := { h_path : str; h_rank : nat }.

(** [open(path, 'w')]: the file is created if need be, and emptied. *)
Definition open_w (path : str) : Py handle :=
  fun w =>
    let w' := {| fs := fs w; trace := trace w ++ [OpenW path];
                 requests := requests w; opens := S (opens w) |} in
    match fs w !! path with
    | Some (Dir _) => (Raise IsADirectoryError, w')
    | Some (File false _) => (Raise PermissionError, w')
    | _ =>
        match disk E (opens w) with
        | OpenFails => (Raise OSError, w')
        | _ => (Return {| h_path := path; h_rank := opens w |},
                set_fs (<[path := File true []]> (fs w)) w')
        end
    end.

(** What is written goes after what the file holds. *)
Definition append_to (data : str) (n : node) : node :=
  match n with
  | File wr c => File wr (c ++ data)
  | Dir wr => Dir wr
  end.

(** [f.write(data)]. *)
Definition write (f : handle) (data : str) : Py unit :=
  fun w =>
    let w' := log (WriteData (h_path f) data) w in
    match disk E (h_rank f) with
    | WriteFails k =>
        (Raise OSError,
         set_fs (alter (append_to (take k data)) (h_path f) (fs w)) w')
    | _ => (Return tt, set_fs (alter (append_to data) (h_path f) (fs w)) w')
    end.

(** [f.close()]. *)
Definition close (f : handle) : Py unit := ret tt.

(** The evaluation of a module-level name that is not a built-in. *)
Definition load_name (x : string) : Py unit :=
  if bool_decide (x ∈ module_names) then ret tt else raise (NameError x).

(** [sys.exit(status)]: the name [sys] is looked up first. *)
Definition sys_exit (status : Z) : Py unit :=
  load_name "sys" ;;; raise (SystemExit status).

(** [a or b], evaluated from left to right. *)
Definition or_ (a b : Py bool) : Py bool :=
  x <- a ;; if x then ret true else b.

(** [not a]. *)
Definition not_ (a : Py bool) : Py bool :=
  x <- a ;; ret (negb x).

Definition of_sum {A} (r : exn + A) : Py A :=
  match r with inl e => raise e | inr a => ret a end.

(** ** The script *)

(** Lines 31 to 39: the body of the loop. *)
Definition process (d : dashboard) : Py unit :=
  f <- urlopen (url d) ;;
  let response := read f in
  decoded_html <- decode_utf8 response ;;
  let data := substitute d decoded_html in
  d_file <- open_w (destination d) ;;
  write d_file data ;;;
  close d_file.

(** Lines 21 to 24. *)
Definition credential_gate : Py unit :=
  GF_SECURITY_ADMIN_PASSWORD <-
    os_environ_get (py "GF_SECURITY_ADMIN_PASSWORD") ;;
  when (bool_decide (GF_SECURITY_ADMIN_PASSWORD = None))
    (print (py "GF_SECURITY_ADMIN_PASSWORD env value is missing, exiting.") ;;;
     sys_exit 1).

(** Lines 26 to 28. *)
Definition directory_gate : Py unit :=
  unusable <- or_ (not_ (os_path_exists dashboard_path))
                (or_ (not_ (os_path_isdir dashboard_path))
                     (not_ (os_access_W_OK dashboard_path))) ;;
  when unusable
    (line <- of_sum (str_format
                       (py "Dashboard path %s is not writable, exiting")
                       [dashboard_path]) ;;
     print line ;;;
     sys_exit 1).

(** The whole script. *)
Definition main : Py unit :=
  credential_gate ;;;
  directory_gate ;;;
  for_each dashboard_list process.
End Script.

(** ** The substitution the specification describes *)

Section OnePass.
Context {A : Type} `{EqDecision A}.

(** The first rule whose token starts [s]. *)
Fixpoint first_match (rules : list (list A * list A)) (s : list A)
  : option (list A * list A) :=
  match rules with
  | [] => None
  | (token, by_) :: rest =>
      if bool_decide (token <> []) && startswith token s
      then Some (token, by_)
      else first_match rest s
  end.

(** One pass over the input: an occurrence of a token is replaced by what
    its rule says, and anything else is copied. What a rule puts in is never
    looked at again. *)
Fixpoint one_pass (rules : list (list A * list A)) (skip : nat) (s : list A)
  : list A :=
  match s with
  | [] => []
  | c :: t =>
      match skip with
      | S k => one_pass rules k t
      | O =>
          match first_match rules s with
          | Some (token, by_) => by_ ++ one_pass rules (length token - 1) t
          | None => c :: one_pass rules 0 t
          end
      end
  end.
End OnePass.

(** The replacements of a list of rules, one after the other, each on the
    result of the one before. *)
Definition passes {A} `{EqDecision A}
    (rules : list (list A * list A)) (s : list A) : list A :=
  foldl (fun acc rule => replace rule.1 rule.2 acc) s rules.

(** The three rules of a descriptor: the placeholder gives way to the
    replacement, the title to the name, and the identifier to the identifier
    followed by the replacement. *)
Definition rules_of (d : dashboard) : list (str * str) :=
  [ (py "${DS_INFLUXDB}", replacement d);
    (py "Geth Dashboard", name d);
    (py "QC1Arp5Wk", py "QC1Arp5Wk" ++ replacement d) ].

(** The substitution in the words of property P3 of the specification, to be
    compared with [substitute]: in the input, every occurrence of a token is
    replaced as its rule says, and all other text is unchanged. *)
Definition substituted (d : dashboard) (text : str) : str :=
  one_pass (rules_of d) 0 text.

(** The code point of an ASCII character. *)
Definition chr (c : ascii) : codepoint := N_of_ascii c.

(** A descriptor keeps the three passes apart when its replacement and its
    name are not empty, hold no first character of a token of a later pass,
    and do not begin with a character that occurs further on in such a
    token. *)
Definition apart (d : dashboard) : bool :=
  match replacement d, name d with
  | r0 :: r, n0 :: n =>
      negb (contains (chr "G") (r0 :: r))
      && negb (contains (chr "Q") (r0 :: r))
      && negb (contains (chr "Q") (n0 :: n))
      && negb (contains r0 (py "eth Dashboard"))
      && negb (contains r0 (py "C1Arp5Wk"))
      && negb (contains n0 (py "C1Arp5Wk"))
  | _, _ => false
  end.

(** [x in s] for strings: [x] occurs somewhere in [s]. *)
Fixpoint occurs (x s : str) : bool :=
  startswith x s ||
  match s with
  | [] => false
  | _ :: t => occurs x t
  end.

(** ** Reading a run *)

(** The text the [i]-th request of a run gives for a descriptor, if the
    request succeeds and its body is UTF-8. *)
Definition fetched (E : Env) (i : nat) (d : dashboard) : option str :=
  match net E i (url d) with
  | Body b => utf8_decode b
  | FetchError => None
  end.

(** A path that [open(path, 'w')] accepts as far as the file system goes: not
    a directory and not a file closed to writing. *)
Definition openable (files : gmap str node) (path : str) : bool :=
  match files !! path with
  | Some (Dir _) | Some (File false _) => false
  | _ => true
  end.

(** The state after a descriptor has been processed without failure, [text]
    being what was downloaded. *)
Definition stored (d : dashboard) (text : str) (w : World) : World :=
  {| fs := <[destination d := File true (substitute d text)]> (fs w);
     trace := trace w ++ [HttpGet (url d); OpenW (destination d);
                          WriteData (destination d) (substitute d text)];
     requests := S (requests w);
     opens := S (opens w) |}.

(** The events of a run that are network requests. *)
Definition is_request (e : event) : bool :=
  match e with HttpGet _ => true | _ => false end.

(** The events that touch a file. *)
Definition is_file_write (e : event) : bool :=
  match e with OpenW _ | WriteData _ _ => true | _ => false end.

(** The failing state of the directory gate: the path is missing, or names a
    file, or names a directory closed to writing. *)
Definition unusable (files : gmap str node) : Prop :=
  files !! dashboard_path = None
  \/ (exists wr c, files !! dashboard_path = Some (File wr c))
  \/ files !! dashboard_path = Some (Dir false).

(** The state after the descriptors of [ds] have been processed in order
    without failure, [texts] being what was downloaded for each. *)
Fixpoint stored_all (ds : list dashboard) (texts : list str) (w : World)
  : World :=
  match ds, texts with
  | d :: ds', t :: texts' => stored_all ds' texts' (stored d t w)
  | _, _ => w
  end.

(** Every request of a run over [ds] from the files [files] succeeds and
    gives, once decoded, the text of the same rank in [texts]; no file fails
    to open or to be written. *)
Definition all_well (E : Env) (ds : list dashboard) (texts : list str)
    (files : gmap str node) : Prop :=
  length texts = length ds
  /\ forall i d, ds !! i = Some d ->
       fetched E i d = texts !! i
       /\ disk E i = DiskOk
       /\ openable files (destination d) = true.

(** The same surroundings with the credential variable set to [value]. *)
Definition with_credential (E : Env) (value : str) : Env :=
  {| environ := <[py "GF_SECURITY_ADMIN_PASSWORD" := value]> (environ E);
     net := net E;
     disk := disk E |}.

(** The path an event opens, if it opens one. *)
Definition opened (e : event) : option str :=
  match e with OpenW path => Some path | _ => None end.

(** ** Occurrences and what can meet them *)

(** [u] and [v] agree as far as both go: one of them starts the other. *)
Definition agree (u v : str) : bool := startswith u v || startswith v u.

(** The non-empty suffixes of [s], longest first. *)
Fixpoint suffixes (s : str) : list str :=
  match s with
  | [] => []
  | _ :: t => s :: suffixes t
  end.

(** No occurrence of [x] can share a character with a stretch [new] put into
    a text: no non-empty suffix of [x] agrees with [new], so no occurrence
    runs into the stretch from the left or starts with it, and [x] agrees
    with no non-empty suffix of [new], so none starts inside it. *)
Definition clear_of (x new : str) : bool :=
  forallb (fun x2 => negb (agree x2 new)) (suffixes x)
  && forallb (fun n2 => negb (agree x n2)) (suffixes new).

(** What the three passes put in cannot rebuild the placeholder. *)
Definition placeholder_stays_out (d : dashboard) : bool :=
  clear_of (py "${DS_INFLUXDB}") (replacement d)
  && clear_of (py "${DS_INFLUXDB}") (name d)
  && clear_of (py "${DS_INFLUXDB}") (py "QC1Arp5Wk" ++ replacement d).

(** A file name that [os.path.join] appends to the directory. *)
Definition relative (f : str) : bool := negb (startswith (py "/") f).

(** The events of the complete processing of a descriptor, [text] being the
    text downloaded: the call of [urlopen], the opening of the file and the
    write. *)
Definition events_of (d : dashboard) (text : str) : list event :=
  [HttpGet (url d); OpenW (destination d);
   WriteData (destination d) (substitute d text)].

(** The state [w] in which the destination of [d] is a file that holds
    [old]. *)
Definition holding (d : dashboard) (old : str) (w : World) : World :=
  set_fs (<[destination d := File true old]> (fs w)) w.

(** ** Sample surroundings *)

Definition sample_body : bytes :=
  ascii_bytes "ds=${DS_INFLUXDB} title=Geth Dashboard uid=QC1Arp5Wk".

Definition sample_files : gmap str node := {[ dashboard_path := Dir true ]}.

(** The variable is set to [value]; every request is answered by
    [sample_body] and the disk never fails. *)
Definition sample_env (value : str) : Env :=
  {| environ := {[ py "GF_SECURITY_ADMIN_PASSWORD" := value ]};
     net := fun _ _ => Body sample_body;
     disk := fun _ => DiskOk |}.

(** The second request of the run fails. *)
Definition flaky_env : Env :=
  {| environ := {[ py "GF_SECURITY_ADMIN_PASSWORD" := py "secret" ]};
     net := fun i _ => match i with O => Body sample_body | S _ => FetchError end;
     disk := fun _ => DiskOk |}.

(** Every body is the lone byte [0xFF], which is not UTF-8. *)
Definition garbled_env : Env :=
  {| environ := {[ py "GF_SECURITY_ADMIN_PASSWORD" := py "secret" ]};
     net := fun _ _ => Body [Byte.xff];
     disk := fun _ => DiskOk |}.

(** Every write fails after three characters. *)
Definition full_disk_env : Env :=
  {| environ := {[ py "GF_SECURITY_ADMIN_PASSWORD" := py "secret" ]};
     net := fun _ _ => Body sample_body;
     disk := fun _ => WriteFails 3 |}.

(** No file can be opened. *)
Definition locked_env : Env :=
  {| environ := {[ py "GF_SECURITY_ADMIN_PASSWORD" := py "secret" ]};
     net := fun _ _ => Body sample_body;
     disk := fun _ => OpenFails |}.

(** The variable is not set. *)
Definition bare_env : Env :=
  {| environ := ∅;
     net := fun _ _ => Body sample_body;
     disk := fun _ => DiskOk |}.

(** * Facts on the library functions *)

(** Python's own answers on small inputs. *)
Example replace_leftmost :
  replace (py "aa") (py "b") (py "aaaaa") = py "bba".
Proof. reflexivity. Qed.

Example replace_all_occurrences :
  replace (py "ab") (py "xyz") (py "ab-ab-a") = py "xyz-xyz-a".
Proof. reflexivity. Qed.

Example replace_empty_old :
  replace (py "") (py "-") (py "abc") = py "-a-b-c-".
Proof. reflexivity. Qed.

Example decode_ascii : utf8_decode (ascii_bytes "Geth") = Some (py "Geth").
Proof. reflexivity. Qed.

Example decode_euro_sign :
  utf8_decode [Byte.xe2; Byte.x82; Byte.xac] = Some [8364%N].
Proof. reflexivity. Qed.

Example decode_rejects_overlong : utf8_decode [Byte.xc0; Byte.x80] = None.
Proof. reflexivity. Qed.

Example decode_rejects_surrogate :
  utf8_decode [Byte.xed; Byte.xa0; Byte.x80] = None.
Proof. reflexivity. Qed.

Example decode_rejects_truncated : utf8_decode [Byte.xe2; Byte.x82] = None.
Proof. reflexivity. Qed.

Example join_relative :
  os_path_join (py "/grafana-dashboards") (py "single_geth_eth.json")
  = py "/grafana-dashboards/single_geth_eth.json".
Proof. reflexivity. Qed.

Example join_absolute :
  os_path_join (py "/grafana-dashboards") (py "/tmp/x") = py "/tmp/x".
Proof. reflexivity. Qed.

Example format_braces :
  str_format (py "{} is {{ok}}") [py "it"] = inr (py "it is {ok}").
Proof. reflexivity. Qed.

Section SequenceFacts.
Context {A : Type} `{EqDecision A}.
Implicit Types (p s t old new x : list A).

Lemma startswith_app p t : startswith p (p ++ t) = true.
Proof.
  induction p as [|a p IH]; [done|].
  simpl. by rewrite decide_True.
Qed.

Lemma startswith_inv p s : startswith p s = true -> exists t, s = p ++ t.
Proof.
  revert s. induction p as [|a p IH]; intros s Hs.
  - by exists s.
  - destruct s as [|b s]; [done|]. simpl in Hs.
    destruct (decide (a = b)) as [->|]; [|done].
    destruct (IH _ Hs) as [t ->]. by exists t.
Qed.

Lemma startswith_cons_inv a p b s :
  startswith (a :: p) (b :: s) = true -> a = b /\ startswith p s = true.
Proof. simpl. by destruct (decide (a = b)). Qed.

(** Once an occurrence is found, the scan passes over it. *)
Lemma replace_scan_skip old new x t :
  replace_scan old new (length x) (x ++ t) = replace_scan old new 0 t.
Proof. induction x as [|c x IH]; [done|]. exact IH. Qed.

Lemma replace_hit a old new t :
  replace (a :: old) new ((a :: old) ++ t) = new ++ replace (a :: old) new t.
Proof.
  unfold replace. cbn [app replace_scan].
  change (a :: old ++ t) with ((a :: old) ++ t).
  rewrite startswith_app. f_equal.
  cbn [length]. rewrite Nat.sub_1_r. cbn [Nat.pred].
  apply replace_scan_skip.
Qed.

Lemma replace_miss a old new c t :
  startswith (a :: old) (c :: t) = false ->
  replace (a :: old) new (c :: t) = c :: replace (a :: old) new t.
Proof. intros Hm. unfold replace. cbn [replace_scan]. by rewrite Hm. Qed.

(** A stretch that does not hold the first item of [old] is copied. *)
Lemma replace_pass a old new x t :
  a ∉ x ->
  replace (a :: old) new (x ++ t) = x ++ replace (a :: old) new t.
Proof.
  induction x as [|c x IH]; intros Ha; [done|].
  rewrite <- !app_comm_cons. rewrite replace_miss.
  - f_equal. apply IH. intros Hin. apply Ha. by right.
  - simpl. destruct (decide (a = c)) as [->|]; [|done].
    exfalso. apply Ha. by left.
Qed.

(** What the result starts with, the input started with, as long as it
    cannot begin like what the replacement puts in. *)
Lemma startswith_replace a old b new x t :
  b ∉ x ->
  startswith x (replace (a :: old) (b :: new) t) = true ->
  startswith x t = true.
Proof.
  revert t. induction x as [|c x IH]; intros t Hb Hs; [done|].
  destruct t as [|e t]; [done|].
  destruct (startswith (a :: old) (e :: t)) eqn:Hm.
  - apply startswith_inv in Hm as [t' Heq].
    rewrite Heq, replace_hit in Hs.
    apply startswith_cons_inv in Hs as [-> _].
    exfalso. apply Hb. by left.
  - rewrite (replace_miss _ _ _ _ _ Hm) in Hs.
    apply startswith_cons_inv in Hs as [-> Hs]. simpl.
    rewrite decide_True by done. apply IH; [|done].
    intros Hin. apply Hb. by right.
Qed.

Lemma one_pass_skip (rules : list (list A * list A)) x t :
  one_pass rules (length x) (x ++ t) = one_pass rules 0 t.
Proof. induction x as [|c x IH]; [done|]. exact IH. Qed.

Lemma one_pass_hit (rules : list (list A * list A)) a token by_ t :
  first_match rules ((a :: token) ++ t) = Some (a :: token, by_) ->
  one_pass rules 0 ((a :: token) ++ t) = by_ ++ one_pass rules 0 t.
Proof.
  intros Hm. cbn [app one_pass].
  change (a :: token ++ t) with ((a :: token) ++ t). rewrite Hm.
  f_equal. cbn [length]. rewrite Nat.sub_1_r. cbn [Nat.pred].
  apply one_pass_skip.
Qed.

Lemma one_pass_miss (rules : list (list A * list A)) c t :
  first_match rules (c :: t) = None ->
  one_pass rules 0 (c :: t) = c :: one_pass rules 0 t.
Proof. intros Hm. cbn [one_pass]. by rewrite Hm. Qed.
End SequenceFacts.

(** ** Three passes or one *)

(** Three replacements in a row amount to one pass with three rules when
    nothing that a pass puts in can start, or be part of, a token of a later
    pass. The tokens are [a :: P], [b :: T] and [c :: I]; the first and third
    passes put in [r0 :: r], the second one [n0 :: n]. *)
Section ThreePasses.
Context {A : Type} `{EqDecision A}.
Variables (a : A) (P : list A) (b : A) (T : list A) (c : A) (I : list A).
Variables (r0 : A) (r : list A) (n0 : A) (n : list A).

Hypothesis a_title : a ∉ b :: T.
Hypothesis a_ident : a ∉ c :: I.
Hypothesis b_ident : b ∉ c :: I.
Hypothesis b_repl : b ∉ r0 :: r.
Hypothesis c_repl : c ∉ r0 :: r.
Hypothesis c_name : c ∉ n0 :: n.
Hypothesis r0_title : r0 ∉ T.
Hypothesis r0_ident : r0 ∉ I.
Hypothesis n0_ident : n0 ∉ I.

Local Abbreviation three_rules :=
  [ (a :: P, r0 :: r); (b :: T, n0 :: n); (c :: I, (c :: I) ++ r0 :: r) ].

Local Abbreviation three_passes := (passes three_rules).

Lemma three_passes_placeholder t :
  three_passes ((a :: P) ++ t) = (r0 :: r) ++ three_passes t.
Proof.
  cbn [passes foldl fst snd].
  by rewrite replace_hit, (replace_pass b), (replace_pass c).
Qed.

Lemma three_passes_title t :
  three_passes ((b :: T) ++ t) = (n0 :: n) ++ three_passes t.
Proof.
  cbn [passes foldl fst snd].
  by rewrite (replace_pass a), replace_hit, (replace_pass c).
Qed.

Lemma three_passes_ident t :
  three_passes ((c :: I) ++ t) = ((c :: I) ++ r0 :: r) ++ three_passes t.
Proof.
  cbn [passes foldl fst snd].
  by rewrite (replace_pass a), (replace_pass b), replace_hit.
Qed.

Lemma three_passes_other x t :
  startswith (a :: P) (x :: t) = false ->
  startswith (b :: T) (x :: t) = false ->
  startswith (c :: I) (x :: t) = false ->
  three_passes (x :: t) = x :: three_passes t.
Proof.
  intros Ha Hb Hc. cbn [passes foldl fst snd].
  rewrite (replace_miss _ _ _ _ _ Ha).
  rewrite replace_miss; [rewrite replace_miss; [done|]|].
  - apply not_true_is_false. intros Hs.
    apply startswith_cons_inv in Hs as [-> Hs].
    apply startswith_replace in Hs; [|done].
    apply startswith_replace in Hs; [|done].
    simpl in Hc. by rewrite decide_True, Hs in Hc.
  - apply not_true_is_false. intros Hs.
    apply startswith_cons_inv in Hs as [-> Hs].
    apply startswith_replace in Hs; [|done].
    simpl in Hb. by rewrite decide_True, Hs in Hb.
Qed.

Theorem three_passes_one_pass s :
  three_passes s = one_pass three_rules 0 s.
Proof.
  remember (length s) as k eqn:Hk. revert s Hk.
  induction k as [k IH] using lt_wf_ind. intros s ->.
  destruct s as [|x t]; [done|].
  destruct (startswith (a :: P) (x :: t)) eqn:Ha.
  { apply startswith_inv in Ha as [t' Heq]. rewrite Heq.
    rewrite three_passes_placeholder, (one_pass_hit _ _ _ (r0 :: r)).
    - f_equal. apply (IH (length t')); [|done].
      rewrite Heq. rewrite length_app. simpl. lia.
    - cbn [first_match].
      by rewrite startswith_app, bool_decide_true. }
  destruct (startswith (b :: T) (x :: t)) eqn:Hb.
  { pose proof Hb as Hb'.
    apply startswith_inv in Hb' as [t' Heq]. rewrite Heq in *.
    rewrite three_passes_title, (one_pass_hit _ _ _ (n0 :: n)).
    - f_equal. apply (IH (length t')); [|done].
      rewrite length_app. simpl. lia.
    - cbn [first_match].
      by rewrite Ha, Hb, andb_false_r, bool_decide_true. }
  destruct (startswith (c :: I) (x :: t)) eqn:Hc.
  { pose proof Hc as Hc'.
    apply startswith_inv in Hc' as [t' Heq]. rewrite Heq in *.
    rewrite three_passes_ident, (one_pass_hit _ _ _ ((c :: I) ++ r0 :: r)).
    - f_equal. apply (IH (length t')); [|done].
      rewrite length_app. simpl. lia.
    - cbn [first_match].
      by rewrite Ha, Hb, Hc, !andb_false_r, bool_decide_true. }
  rewrite three_passes_other by done. rewrite one_pass_miss.
  - f_equal. by apply (IH (length t)); [simpl; lia|].
  - cbn [first_match].
    by rewrite Ha, Hb, Hc, !andb_false_r.
Qed.
End ThreePasses.

(** * Facts on the script *)

Lemma str_format_plain template args :
  lbrace ∉ template -> rbrace ∉ template ->
  str_format template args = inr template.
Proof.
  induction template as [|c t IH]; intros Hl Hr; [done|].
  cbn [str_format].
  rewrite !bool_decide_false.
  - rewrite IH; [done| |]; intros Hin; [apply Hl|apply Hr]; by right.
  - intros ->. apply Hr. by left.
  - intros ->. apply Hl. by left.
Qed.

Section GateFacts.
Variable E : Env.
Implicit Types (w : World).

Lemma credential_gate_set w :
  is_Some (environ E !! py "GF_SECURITY_ADMIN_PASSWORD") ->
  credential_gate E w = (Return tt, w).
Proof.
  intros [v Hv]. unfold credential_gate, os_environ_get, bind, ret.
  by rewrite Hv.
Qed.

Lemma credential_gate_unset w :
  environ E !! py "GF_SECURITY_ADMIN_PASSWORD" = None ->
  credential_gate E w =
    (Raise (NameError "sys"),
     log (Print (py "GF_SECURITY_ADMIN_PASSWORD env value is missing, exiting.")) w).
Proof.
  intros Hv. unfold credential_gate, os_environ_get, bind, ret.
  by rewrite Hv.
Qed.

Lemma directory_gate_usable w :
  fs w !! dashboard_path = Some (Dir true) ->
  directory_gate w = (Return tt, w).
Proof.
  intros Hd.
  unfold directory_gate, or_, not_, bind, ret, os_path_exists, os_path_isdir,
    os_access_W_OK.
  rewrite bool_decide_true by (rewrite Hd; eauto).
  by repeat (cbn [negb]; rewrite Hd).
Qed.

Lemma directory_gate_line :
  str_format (py "Dashboard path %s is not writable, exiting") [dashboard_path]
  = inr (py "Dashboard path %s is not writable, exiting").
Proof. by vm_compute. Qed.

Lemma directory_gate_unusable w :
  unusable (fs w) ->
  directory_gate w =
    (Raise (NameError "sys"),
     log (Print (py "Dashboard path %s is not writable, exiting")) w).
Proof.
  intros Hd.
  unfold directory_gate, or_, not_, bind, ret, os_path_exists, os_path_isdir,
    os_access_W_OK.
  rewrite directory_gate_line.
  destruct Hd as [Hd|[(wr & c & Hd)|Hd]].
  - rewrite bool_decide_false by (rewrite Hd; by intros [? ?]). done.
  - rewrite bool_decide_true by (rewrite Hd; eauto).
    by repeat (cbn [negb]; rewrite ?Hd).
  - rewrite bool_decide_true by (rewrite Hd; eauto).
    by repeat (cbn [negb]; rewrite ?Hd).
Qed.
End GateFacts.

(** ** One descriptor *)

(** Case analysis on every branch a statement can take. *)
Ltac run_cases :=
  repeat (case_match; unfold ret, raise in *;
          cbn [fs trace requests opens h_path h_rank] in *; simplify_eq).

Section ProcessFacts.
Variable E : Env.
Implicit Types (w : World) (d : dashboard).

Lemma written_once (files : gmap str node) path data :
  alter (append_to data) path (<[path := File true []]> files)
  = <[path := File true data]> files.
Proof. by rewrite alter_insert_eq. Qed.

(** When the request, the decoding and the disk all go well, the file holds
    the substituted text and nothing else has changed. *)
Lemma process_stores d w text :
  fetched E (requests w) d = Some text ->
  disk E (opens w) = DiskOk ->
  openable (fs w) (destination d) = true ->
  process E d w = (Return tt, stored d text w).
Proof.
  unfold fetched, openable, process, bind, urlopen, decode_utf8, read.
  intros Hf Hk Ho.
  destruct (net E (requests w) (url d)) as [|b]; [done|].
  rewrite Hf. unfold ret, open_w, write, close, set_fs, log, stored.
  cbn [fs trace requests opens h_path h_rank].
  destruct (fs w !! destination d) as [[[] ?|?]|]; try done;
    repeat (rewrite Hk; cbn [fs trace requests opens h_path h_rank]);
    unfold ret; by rewrite written_once, <- !app_assoc.
Qed.

(** Whatever happens, no path but the destination is touched. *)
Lemma process_frame d w r w' path :
  process E d w = (r, w') ->
  path <> destination d ->
  fs w' !! path = fs w !! path.
Proof.
  unfold process, bind, urlopen, decode_utf8, read, ret, raise, open_w,
    write, close, set_fs, log.
  intros Hp Hne.
  run_cases; cbn [fs];
    by rewrite ?lookup_alter_ne, ?lookup_insert_ne by done.
Qed.

(** Whatever happens, exactly one request is sent, and the events are the
    first ones of a complete processing of this descriptor. *)
Lemma process_events d w r w' :
  process E d w = (r, w') ->
  requests w' = S (requests w)
  /\ exists k text,
       1 <= k
       /\ trace w' =
            trace w ++ take k [HttpGet (url d); OpenW (destination d);
                               WriteData (destination d) (substitute d text)].
Proof.
  unfold process, bind, urlopen, decode_utf8, read, ret, raise, open_w,
    write, close, set_fs, log.
  intros Hp.
  run_cases; cbn [trace requests]; (split; [done|]); rewrite <- ?app_assoc;
    first [ exists 1, []; split; [lia|reflexivity]
          | exists 2, []; split; [lia|reflexivity]
          | eexists 3, _; split; [lia|reflexivity] ].
Qed.

(** The two surroundings answer alike. *)
Lemma process_ext (E' : Env) d w :
  net E = net E' -> disk E = disk E' -> process E d w = process E' d w.
Proof.
  unfold process, bind, urlopen, open_w, write. by intros -> ->.
Qed.
End ProcessFacts.

(** ** The loop and the whole script *)

Section LoopFacts.
Variable E : Env.
Implicit Types (w : World) (d : dashboard) (ds : list dashboard).

(** The first failure ends the loop: the state is the one the failing
    descriptor leaves. *)
Lemma loop_aborts pre d post w w1 e w2 :
  for_each pre (process E) w = (Return tt, w1) ->
  process E d w1 = (Raise e, w2) ->
  for_each (pre ++ d :: post) (process E) w = (Raise e, w2).
Proof.
  revert w. induction pre as [|x pre IH]; intros w Hpre Hd.
  - cbn in Hpre. unfold ret in Hpre. simplify_eq.
    cbn [app for_each]. unfold bind. by rewrite Hd.
  - cbn [app for_each] in *. unfold bind in *.
    destruct (process E x w) as [[[]|e'] w0]; [|done].
    by apply IH.
Qed.

Lemma openable_stored d text w path :
  openable (fs w) path = true ->
  openable (fs (stored d text w)) path = true.
Proof.
  unfold openable, stored. cbn [fs]. intros Ho.
  destruct (decide (destination d = path)) as [->|Hne].
  - by rewrite lookup_insert_eq.
  - by rewrite lookup_insert_ne.
Qed.

(** When all goes well the loop runs to its end. *)
Lemma loop_stores ds texts w :
  length texts = length ds ->
  (forall i d, ds !! i = Some d ->
     fetched E (requests w + i) d = texts !! i
     /\ disk E (opens w + i) = DiskOk
     /\ openable (fs w) (destination d) = true) ->
  for_each ds (process E) w = (Return tt, stored_all ds texts w).
Proof.
  revert texts w. induction ds as [|d ds IH]; intros texts w Hlen Hall.
  - by destruct texts.
  - destruct texts as [|t texts]; [done|].
    destruct (Hall 0 d eq_refl) as (Hf & Hk & Ho).
    rewrite !Nat.add_0_r in *.
    cbn [for_each stored_all]. unfold bind.
    rewrite (process_stores E d w t Hf Hk Ho).
    apply IH; [by simplify_eq/=|].
    intros i d' Hi. destruct (Hall (S i) d' Hi) as (Hf' & Hk' & Ho').
    cbn [stored requests opens].
    rewrite <- !Nat.add_succ_comm in *.
    by split_and!; [| |apply openable_stored].
Qed.

(** Paths that are no destination keep what they hold. *)
Lemma stored_all_frame ds texts w path :
  path ∉ destination <$> ds ->
  fs (stored_all ds texts w) !! path = fs w !! path.
Proof.
  revert texts w. induction ds as [|d ds IH]; intros texts w Hp; [done|].
  destruct texts as [|t texts]; [done|].
  cbn [stored_all]. rewrite fmap_cons in Hp.
  apply not_elem_of_cons in Hp as [Hne Hp].
  rewrite IH by done. unfold stored. cbn [fs].
  by rewrite lookup_insert_ne.
Qed.

(** With distinct destinations, each file holds the text of its own
    descriptor. *)
Lemma stored_all_lookup ds texts w i d t :
  NoDup (destination <$> ds) ->
  ds !! i = Some d -> texts !! i = Some t ->
  fs (stored_all ds texts w) !! destination d
  = Some (File true (substitute d t)).
Proof.
  revert texts w i. induction ds as [|x ds IH]; intros texts w i Hnd Hd Ht;
    [done|].
  destruct texts as [|y texts]; [done|].
  rewrite fmap_cons in Hnd. apply NoDup_cons in Hnd as [Hx Hnd].
  cbn [stored_all]. destruct i as [|i]; cbn in Hd, Ht.
  - simplify_eq. rewrite stored_all_frame by done.
    unfold stored. cbn [fs]. by rewrite lookup_insert_eq.
  - by eapply IH.
Qed.

(** Storing again what is already there changes nothing. *)
Lemma stored_all_again ds texts w :
  (forall i d t, ds !! i = Some d -> texts !! i = Some t ->
     fs w !! destination d = Some (File true (substitute d t))) ->
  fs (stored_all ds texts w) = fs w.
Proof.
  revert texts w. induction ds as [|d ds IH]; intros texts w Hall; [done|].
  destruct texts as [|t texts]; [done|].
  cbn [stored_all].
  assert (fs (stored d t w) = fs w) as Heq.
  { unfold stored. cbn [fs]. apply insert_id. by apply (Hall 0). }
  rewrite IH; [done|].
  intros i d' t' Hd Ht. rewrite Heq. by apply (Hall (S i)).
Qed.

Lemma stored_all_trace ds texts w :
  length texts = length ds ->
  trace (stored_all ds texts w) =
    trace w ++
    flat_map (fun dt => [HttpGet (url dt.1); OpenW (destination dt.1);
                         WriteData (destination dt.1) (substitute dt.1 dt.2)])
             (zip ds texts).
Proof.
  revert texts w. induction ds as [|d ds IH]; intros texts w Hlen.
  - destruct texts; [|done]. cbn. by rewrite app_nil_r.
  - destruct texts as [|t texts]; [done|].
    cbn [stored_all zip zip_with flat_map]. rewrite IH by by simplify_eq/=.
    unfold stored. cbn [trace fst snd]. by rewrite <- app_assoc.
Qed.

(** Past the two gates, the script is its loop. *)
Lemma main_past_gates files :
  is_Some (environ E !! py "GF_SECURITY_ADMIN_PASSWORD") ->
  files !! dashboard_path = Some (Dir true) ->
  main E (start files) = for_each dashboard_list (process E) (start files).
Proof.
  intros Hc Hd. unfold main, bind.
  rewrite credential_gate_set by done.
  by rewrite directory_gate_usable.
Qed.

Lemma main_all_well files texts :
  is_Some (environ E !! py "GF_SECURITY_ADMIN_PASSWORD") ->
  files !! dashboard_path = Some (Dir true) ->
  all_well E dashboard_list texts files ->
  main E (start files)
  = (Return tt, stored_all dashboard_list texts (start files)).
Proof.
  intros Hc Hd [Hlen Hall]. rewrite main_past_gates by done.
  apply loop_stores; [done|]. intros i d Hi. by apply Hall.
Qed.
End LoopFacts.

Lemma destinations_distinct : NoDup (destination <$> dashboard_list).
Proof. compute_done. Qed.

Lemma dashboard_path_no_destination :
  dashboard_path ∉ destination <$> dashboard_list.
Proof. compute_done. Qed.

(** ** The three replacements of the script *)

Lemma contains_false {A} `{EqDecision A} (x : A) (s : list A) :
  contains x s = false -> x ∉ s.
Proof.
  unfold contains. induction s as [|y s IH]; cbn [existsb].
  - intros _ Hin. by apply elem_of_nil in Hin.
  - intros [Hy Hs]%orb_false_elim Hin.
    apply elem_of_cons in Hin as [->|Hin]; [|by apply IH].
    by rewrite bool_decide_true in Hy.
Qed.

(** For a descriptor that keeps the passes apart, lines 34 to 36 do what the
    specification says in one pass over the input. *)
Lemma substitute_one_pass d text :
  apart d = true -> substitute d text = substituted d text.
Proof.
  unfold apart, substitute, substituted, rules_of.
  destruct (replacement d) as [|r0 r]; [done|].
  destruct (name d) as [|n0 n]; [done|].
  rewrite !andb_true_iff, !negb_true_iff.
  intros (((((HG & HQ) & HQn) & Hr0T) & Hr0I) & Hn0I).
  apply (three_passes_one_pass
           (chr "$") (py "{DS_INFLUXDB}") (chr "G") (py "eth Dashboard")
           (chr "Q") (py "C1Arp5Wk") r0 r n0 n);
    try (by apply contains_false); compute_done.
Qed.

Lemma dashboard_list_apart d : d ∈ dashboard_list -> apart d = true.
Proof.
  unfold dashboard_list. rewrite !elem_of_cons, elem_of_nil.
  by intros [->|[->|[]]]; vm_compute.
Qed.

(** The condition is needed: a replacement that holds the title is rewritten
    by the second pass, which one pass over the input would not do. *)
Remark passes_can_meet :
  substitute {| name := py "N"; filename := py "f"; url := py "u";
                replacement := py "Geth Dashboard" |}
             (py "${DS_INFLUXDB}") = py "N"
  /\ substituted {| name := py "N"; filename := py "f"; url := py "u";
                    replacement := py "Geth Dashboard" |}
                 (py "${DS_INFLUXDB}") = py "Geth Dashboard".
Proof. split; reflexivity. Qed.

Lemma for_each_ext {A} (f g : A -> Py unit) (l : list A) w :
  (forall x w', f x w' = g x w') -> for_each l f w = for_each l g w.
Proof.
  intros Hfg. revert w. induction l as [|x l IH]; intros w; [done|].
  cbn [for_each]. unfold bind. rewrite Hfg.
  by destruct (g x w) as [[[]|e] w'].
Qed.

Lemma loop_requests E ds w w' :
  for_each ds (process E) w = (Return tt, w') ->
  requests w' = requests w + length ds.
Proof.
  revert w. induction ds as [|d ds IH]; intros w Hrun.
  - cbn in Hrun. unfold ret in Hrun. simplify_eq. cbn [length]. lia.
  - cbn [for_each] in Hrun. unfold bind in Hrun.
    destruct (process E d w) as [[[]|e] w0] eqn:Hd; [|done].
    apply process_events in Hd as [Hd _]. apply IH in Hrun.
    cbn [length]. lia.
Qed.

(** The value of the credential plays no part. *)
Lemma main_ext E E' w :
  is_Some (environ E !! py "GF_SECURITY_ADMIN_PASSWORD") ->
  is_Some (environ E' !! py "GF_SECURITY_ADMIN_PASSWORD") ->
  net E = net E' -> disk E = disk E' ->
  main E w = main E' w.
Proof.
  intros Hc Hc' Hn Hk. unfold main, bind.
  rewrite !credential_gate_set by done.
  destruct (directory_gate w) as [[[]|e] w0]; [|done].
  apply for_each_ext. intros d w'. by apply process_ext.
Qed.

(** * The properties of the specification *)

(** C1 (substitution correctness). For every descriptor of [dashboard_list]
    and every downloaded text, the text written to the descriptor's file is
    the input in which every occurrence of the placeholder is replaced by the
    descriptor's replacement, every occurrence of the title by its name and
    every occurrence of the identifier by the identifier followed by the
    replacement, all other text being unchanged: the three chained
    replacements of the script give the result of the single pass
    [substituted]. *)
Theorem written_text_is_substituted E d w text :
  d ∈ dashboard_list ->
  fetched E (requests w) d = Some text ->
  disk E (opens w) = DiskOk ->
  openable (fs w) (destination d) = true ->
  substitute d text = substituted d text
  /\ exists w',
       process E d w = (Return tt, w')
       /\ fs w' !! destination d = Some (File true (substituted d text)).
Proof.
  intros Hd Hf Hk Ho.
  assert (substitute d text = substituted d text) as Heq
    by (by apply substitute_one_pass, dashboard_list_apart).
  split; [done|]. exists (stored d text w). split.
  - by apply process_stores.
  - unfold stored. cbn [fs]. by rewrite lookup_insert_eq, Heq.
Qed.

(** For the first descriptor and a text that holds the three tokens, the file
    holds [InfluxDB_eth], [Geth Dashboard Ethereum] and
    [QC1Arp5WkInfluxDB_eth] in their place. *)
Lemma written_text_is_substituted_witness :
  substituted geth_eth
    (py "ds=${DS_INFLUXDB} title=Geth Dashboard uid=QC1Arp5Wk")
  = py "ds=InfluxDB_eth title=Geth Dashboard Ethereum uid=QC1Arp5WkInfluxDB_eth"
  /\ (substitute geth_eth
        (py "ds=${DS_INFLUXDB} title=Geth Dashboard uid=QC1Arp5Wk")
      = substituted geth_eth
          (py "ds=${DS_INFLUXDB} title=Geth Dashboard uid=QC1Arp5Wk")
      /\ exists w',
           process (sample_env (py "secret")) geth_eth (start sample_files)
           = (Return tt, w')
           /\ fs w' !! destination geth_eth
              = Some (File true
                        (substituted geth_eth
                           (py "ds=${DS_INFLUXDB} title=Geth Dashboard uid=QC1Arp5Wk")))).
Proof.
  split; [vm_compute; reflexivity|].
  apply (written_text_is_substituted (sample_env (py "secret")) geth_eth
           (start sample_files));
    [by constructor | vm_compute; reflexivity ..].
Defined.

(** C2 (credential gate), as the script has it: if the credential variable
    is not set, the process sends no request, writes no file, prints its
    diagnostic and ends with a status that is not 0. The gate tests for an
    absent variable only. *)
Theorem missing_credential_stops_the_run E files :
  environ E !! py "GF_SECURITY_ADMIN_PASSWORD" = None ->
  trace (main E (start files)).2
  = [Print (py "GF_SECURITY_ADMIN_PASSWORD env value is missing, exiting.")]
  /\ List.filter is_request (trace (main E (start files)).2) = []
  /\ List.filter is_file_write (trace (main E (start files)).2) = []
  /\ requests (main E (start files)).2 = 0
  /\ opens (main E (start files)).2 = 0
  /\ fs (main E (start files)).2 = files
  /\ exit_status (main E (start files)).1 <> 0%Z.
Proof.
  intros Hc. unfold main, bind.
  rewrite credential_gate_unset by done.
  by cbn.
Qed.

Lemma missing_credential_stops_the_run_witness :
  trace (main bare_env (start sample_files)).2
  = [Print (py "GF_SECURITY_ADMIN_PASSWORD env value is missing, exiting.")]
  /\ List.filter is_request (trace (main bare_env (start sample_files)).2) = []
  /\ List.filter is_file_write (trace (main bare_env (start sample_files)).2)
     = []
  /\ requests (main bare_env (start sample_files)).2 = 0
  /\ opens (main bare_env (start sample_files)).2 = 0
  /\ fs (main bare_env (start sample_files)).2 = sample_files
  /\ exit_status (main bare_env (start sample_files)).1 <> 0%Z.
Proof.
  apply (missing_credential_stops_the_run bare_env sample_files).
  vm_compute; reflexivity.
Defined.

(** C2 as stated fails: with the variable set to the empty string, the
    script passes the gate, sends its two requests, opens and writes its two
    files and ends with status 0. *)
Lemma empty_credential_is_not_stopped :
  environ (sample_env []) !! py "GF_SECURITY_ADMIN_PASSWORD" = Some []
  /\ length (List.filter is_request
               (trace (main (sample_env []) (start sample_files)).2)) = 2
  /\ length (List.filter is_file_write
               (trace (main (sample_env []) (start sample_files)).2)) = 4
  /\ exit_status (main (sample_env []) (start sample_files)).1 = 0%Z.
Proof. by vm_compute. Qed.

(** C3 (directory gate). If the credential is present and the destination
    path does not exist, or is not a directory, or is a directory the process
    cannot write to, the process sends no request, prints its diagnostic,
    the line [Dashboard path %s is not writable, exiting], and nothing else,
    and ends with a status that is not 0, before any download. *)
Theorem unusable_directory_stops_the_run E files :
  is_Some (environ E !! py "GF_SECURITY_ADMIN_PASSWORD") ->
  unusable files ->
  List.filter is_request (trace (main E (start files)).2) = []
  /\ requests (main E (start files)).2 = 0
  /\ trace (main E (start files)).2
     = [Print (py "Dashboard path %s is not writable, exiting")]
  /\ fs (main E (start files)).2 = files
  /\ exit_status (main E (start files)).1 <> 0%Z.
Proof.
  intros Hc Hd. unfold main, bind.
  rewrite credential_gate_set by done.
  rewrite directory_gate_unusable by done.
  cbn. split_and!; eauto.
Qed.

Lemma unusable_directory_stops_the_run_witness :
  List.filter is_request
    (trace (main (sample_env (py "secret"))
                 (start {[ dashboard_path := Dir false ]})).2) = []
  /\ requests (main (sample_env (py "secret"))
                    (start {[ dashboard_path := Dir false ]})).2 = 0
  /\ trace (main (sample_env (py "secret"))
                 (start {[ dashboard_path := Dir false ]})).2
     = [Print (py "Dashboard path %s is not writable, exiting")]
  /\ fs (main (sample_env (py "secret"))
              (start {[ dashboard_path := Dir false ]})).2
     = {[ dashboard_path := Dir false ]}
  /\ exit_status (main (sample_env (py "secret"))
                       (start {[ dashboard_path := Dir false ]})).1 <> 0%Z.
Proof.
  apply (unusable_directory_stops_the_run (sample_env (py "secret"))
           {[ dashboard_path := Dir false ]}).
  - exists (py "secret"). vm_compute; reflexivity.
  - right. right. vm_compute; reflexivity.
Defined.

(** C9 (how a failing gate ends the process). When either gate fails, the
    process does not end through [sys.exit(1)]: the name [sys] is bound
    nowhere in the module, so its evaluation raises [NameError] right after
    the diagnostic is printed, nothing catches it, and the status is the one
    the interpreter gives to any exception that is not [SystemExit]. *)
Theorem gate_failure_is_a_name_error E files :
  environ E !! py "GF_SECURITY_ADMIN_PASSWORD" = None \/ unusable files ->
  ("sys"%string ∉ module_names)
  /\ (exists line,
        main E (start files)
        = (Raise (NameError "sys"), log (Print line) (start files)))
  /\ (forall status, (main E (start files)).1 <> Raise (SystemExit status))
  /\ exit_status (main E (start files)).1 = 1%Z
  /\ (forall e, (forall status, e <> SystemExit status) ->
        exit_status (Raise e) = 1%Z).
Proof.
  intros Hgate.
  assert (exists line,
            main E (start files)
            = (Raise (NameError "sys"), log (Print line) (start files)))
    as [line Hrun].
  { unfold main, bind.
    destruct (environ E !! py "GF_SECURITY_ADMIN_PASSWORD") as [v|] eqn:Hc.
    - destruct Hgate as [|Hd]; [done|].
      rewrite credential_gate_set by (by rewrite Hc).
      rewrite directory_gate_unusable by done. eauto.
    - rewrite credential_gate_unset by done. eauto. }
  split_and!.
  - compute_done.
  - eauto.
  - intros status. by rewrite Hrun.
  - by rewrite Hrun.
  - intros [] He; try done. by destruct (He status).
Qed.

Lemma gate_failure_is_a_name_error_witness :
  ("sys"%string ∉ module_names)
  /\ (exists line,
        main bare_env (start sample_files)
        = (Raise (NameError "sys"), log (Print line) (start sample_files)))
  /\ (forall status,
        (main bare_env (start sample_files)).1 <> Raise (SystemExit status))
  /\ exit_status (main bare_env (start sample_files)).1 = 1%Z
  /\ (forall e, (forall status, e <> SystemExit status) ->
        exit_status (Raise e) = 1%Z).
Proof.
  apply (gate_failure_is_a_name_error bare_env sample_files).
  left. vm_compute; reflexivity.
Defined.

(** C10 (the diagnostic of the directory gate). When the directory gate
    fails, the line printed is the literal text
    [Dashboard path %s is not writable, exiting], with its [%s] as it is:
    [str.format] finds no brace in the template and gives it back whatever
    its argument, so the path does not appear in the message. *)
Theorem directory_diagnostic_is_literal E files :
  is_Some (environ E !! py "GF_SECURITY_ADMIN_PASSWORD") ->
  unusable files ->
  trace (main E (start files)).2
  = [Print (py "Dashboard path %s is not writable, exiting")]
  /\ (forall path,
        str_format (py "Dashboard path %s is not writable, exiting") [path]
        = inr (py "Dashboard path %s is not writable, exiting"))
  /\ occurs dashboard_path (py "Dashboard path %s is not writable, exiting")
     = false.
Proof.
  intros Hc Hd. split_and!.
  - unfold main, bind. rewrite credential_gate_set by done.
    by rewrite directory_gate_unusable.
  - intros path. apply str_format_plain; compute_done.
  - by vm_compute.
Qed.

Lemma directory_diagnostic_is_literal_witness :
  trace (main (sample_env (py "secret")) (start ∅)).2
  = [Print (py "Dashboard path %s is not writable, exiting")]
  /\ (forall path,
        str_format (py "Dashboard path %s is not writable, exiting") [path]
        = inr (py "Dashboard path %s is not writable, exiting"))
  /\ occurs dashboard_path (py "Dashboard path %s is not writable, exiting")
     = false.
Proof.
  apply (directory_diagnostic_is_literal (sample_env (py "secret")) ∅).
  - exists (py "secret"). vm_compute; reflexivity.
  - left. vm_compute; reflexivity.
Defined.

(** C8 (the credential's value). Two runs that differ only in the value the
    credential variable is set to behave alike: same requests, same files,
    same messages, same exit status. The value reaches no output. *)
Theorem credential_value_is_ignored E value1 value2 w :
  main (with_credential E value1) w = main (with_credential E value2) w.
Proof.
  apply main_ext; try done;
    unfold with_credential; cbn [environ];
    rewrite lookup_insert_eq; eauto.
Qed.

(** What the run leaves when all goes well. *)
Lemma full_run E files texts :
  is_Some (environ E !! py "GF_SECURITY_ADMIN_PASSWORD") ->
  files !! dashboard_path = Some (Dir true) ->
  all_well E dashboard_list texts files ->
  main E (start files)
  = (Return tt, stored_all dashboard_list texts (start files))
  /\ fs (stored_all dashboard_list texts (start files)) !! dashboard_path
     = Some (Dir true)
  /\ forall i d t,
       dashboard_list !! i = Some d -> texts !! i = Some t ->
       fs (stored_all dashboard_list texts (start files)) !! destination d
       = Some (File true (substitute d t)).
Proof.
  intros Hc Hd Hall. split_and!.
  - by apply main_all_well.
  - rewrite stored_all_frame by apply dashboard_path_no_destination. done.
  - intros i d t Hi Ht.
    by apply (stored_all_lookup _ _ _ i), Ht; [apply destinations_distinct|].
Qed.

Lemma sample_all_well value :
  all_well (sample_env value) dashboard_list
    [py "ds=${DS_INFLUXDB} title=Geth Dashboard uid=QC1Arp5Wk";
     py "ds=${DS_INFLUXDB} title=Geth Dashboard uid=QC1Arp5Wk"]
    sample_files.
Proof.
  split; [reflexivity|].
  intros [|[|i]] d Hd; cbn in Hd; [| |discriminate];
    injection Hd as <-; repeat split; vm_compute; reflexivity.
Qed.

(** C7 (full success). If both preconditions hold and every request,
    decoding and write succeeds for every descriptor of the list, the
    process ends with status 0 after it has processed all descriptors, and
    it has opened and written exactly one file for each descriptor, named
    after the descriptor's [filename] in the destination directory. *)
Theorem full_run_exits_zero E files texts :
  is_Some (environ E !! py "GF_SECURITY_ADMIN_PASSWORD") ->
  files !! dashboard_path = Some (Dir true) ->
  all_well E dashboard_list texts files ->
  exit_status (main E (start files)).1 = 0%Z
  /\ trace (main E (start files)).2
     = flat_map (fun dt => [HttpGet (url dt.1); OpenW (destination dt.1);
                            WriteData (destination dt.1)
                                      (substitute dt.1 dt.2)])
                (zip dashboard_list texts)
  /\ omap opened (trace (main E (start files)).2)
     = (fun d => os_path_join dashboard_path (filename d)) <$> dashboard_list
  /\ forall i d t,
       dashboard_list !! i = Some d -> texts !! i = Some t ->
       fs (main E (start files)).2 !! destination d
       = Some (File true (substitute d t)).
Proof.
  intros Hc Hd Hall. destruct (full_run E files texts) as (Hrun & _ & Hfs);
    [done..|].
  rewrite Hrun. cbn [fst snd].
  assert (length texts = length dashboard_list) as Hlen by apply Hall.
  rewrite stored_all_trace by done. cbn [start trace app].
  split_and!; [done|done| |done].
  destruct texts as [|t1 [|t2 [|]]]; try done.
Qed.

Lemma full_run_exits_zero_witness :
  exit_status (main (sample_env (py "secret")) (start sample_files)).1 = 0%Z
  /\ length (trace (main (sample_env (py "secret")) (start sample_files)).2)
     = 6.
Proof.
  destruct (full_run_exits_zero (sample_env (py "secret")) sample_files
              [py "ds=${DS_INFLUXDB} title=Geth Dashboard uid=QC1Arp5Wk";
               py "ds=${DS_INFLUXDB} title=Geth Dashboard uid=QC1Arp5Wk"])
    as (Hexit & Htrace & _).
  - exists (py "secret"). vm_compute; reflexivity.
  - vm_compute; reflexivity.
  - apply sample_all_well.
  - split; [exact Hexit|]. rewrite Htrace. reflexivity.
Defined.

(** C6 (overwrite). A second run in the same surroundings, started from the
    files the first run left, leaves the same files: each destination holds
    the text just produced and nothing more, whatever it held before the
    first run, because [open(path, 'w')] empties the file before the write. *)
Theorem rerun_leaves_same_files E files texts :
  is_Some (environ E !! py "GF_SECURITY_ADMIN_PASSWORD") ->
  files !! dashboard_path = Some (Dir true) ->
  all_well E dashboard_list texts files ->
  exists w1 w2,
    main E (start files) = (Return tt, w1)
    /\ main E (start (fs w1)) = (Return tt, w2)
    /\ fs w2 = fs w1
    /\ forall i d t,
         dashboard_list !! i = Some d -> texts !! i = Some t ->
         fs w1 !! destination d = Some (File true (substitute d t)).
Proof.
  intros Hc Hd Hall.
  destruct (full_run E files texts) as (Hrun & Hdir & Hfs); [done..|].
  set (w1 := stored_all dashboard_list texts (start files)) in *.
  assert (all_well E dashboard_list texts (fs w1)) as Hall'.
  { destruct Hall as [Hlen Hall]. split; [done|].
    intros i d Hi. destruct (Hall i d Hi) as (Hf & Hk & _).
    split_and!; [done..|].
    destruct (lookup_lt_is_Some_2 texts i) as [t Ht].
    { rewrite Hlen. by eapply lookup_lt_Some. }
    unfold openable. by rewrite (Hfs i d t). }
  exists w1, (stored_all dashboard_list texts (start (fs w1))).
  split_and!; [done| |..|done].
  - by apply main_all_well.
  - rewrite stored_all_again; [done|]. intros i d t Hi Ht. by eapply Hfs.
Qed.

Lemma rerun_leaves_same_files_witness :
  exists w1 w2,
    main (sample_env (py "secret"))
         (start (<[destination geth_eth := File true (py "old text")]>
                   sample_files))
    = (Return tt, w1)
    /\ main (sample_env (py "secret")) (start (fs w1)) = (Return tt, w2)
    /\ fs w2 = fs w1
    /\ fs w1 !! destination geth_eth
       = Some (File true
                 (py "ds=InfluxDB_eth title=Geth Dashboard Ethereum uid=QC1Arp5WkInfluxDB_eth")).
Proof.
  destruct (rerun_leaves_same_files (sample_env (py "secret"))
              (<[destination geth_eth := File true (py "old text")]>
                 sample_files)
              [py "ds=${DS_INFLUXDB} title=Geth Dashboard uid=QC1Arp5Wk";
               py "ds=${DS_INFLUXDB} title=Geth Dashboard uid=QC1Arp5Wk"])
    as (w1 & w2 & H1 & H2 & Heq & Hfs).
  - exists (py "secret"). vm_compute; reflexivity.
  - vm_compute; reflexivity.
  - split; [reflexivity|].
    intros [|[|i]] d Hd; cbn in Hd; [| |discriminate];
      injection Hd as <-; repeat split; vm_compute; reflexivity.
  - exists w1, w2. split; [exact H1|]. split; [exact H2|].
    split; [exact Heq|]. exact (Hfs 0 geth_eth _ eq_refl eq_refl).
Defined.

(** C5 (per-descriptor isolation). For two descriptors of the same run with
    distinct replacements and distinct file names, the file of each holds the
    substitution of its own descriptor applied to its own downloaded text,
    and processing one of them leaves the file of the other as it is. *)
Theorem outputs_do_not_mix E files texts i j d1 d2 t1 t2 :
  is_Some (environ E !! py "GF_SECURITY_ADMIN_PASSWORD") ->
  files !! dashboard_path = Some (Dir true) ->
  all_well E dashboard_list texts files ->
  dashboard_list !! i = Some d1 -> dashboard_list !! j = Some d2 ->
  replacement d1 <> replacement d2 -> filename d1 <> filename d2 ->
  texts !! i = Some t1 -> texts !! j = Some t2 ->
  (exists w,
     main E (start files) = (Return tt, w)
     /\ fs w !! destination d1 = Some (File true (substitute d1 t1))
     /\ fs w !! destination d2 = Some (File true (substitute d2 t2)))
  /\ (forall w0 r w1,
        process E d2 w0 = (r, w1) ->
        fs w1 !! destination d1 = fs w0 !! destination d1)
  /\ (forall w0 r w1,
        process E d1 w0 = (r, w1) ->
        fs w1 !! destination d2 = fs w0 !! destination d2).
Proof.
  intros Hc Hd Hall Hi Hj Hr Hn Ht1 Ht2.
  destruct (full_run E files texts) as (Hrun & _ & Hfs); [done..|].
  assert (destination d1 <> destination d2) as Hne.
  { intros Heq. apply Hn.
    assert (i = j) as ->; [|congruence].
    eapply (NoDup_lookup (destination <$> dashboard_list));
      [apply destinations_distinct|..].
    - by rewrite list_lookup_fmap, Hi.
    - by rewrite list_lookup_fmap, Hj, Heq. }
  split_and!.
  - eexists. split_and!; [done|by eapply Hfs..].
  - intros w0 r w1 Hp. by eapply process_frame.
  - intros w0 r w1 Hp. by eapply process_frame.
Qed.

Lemma outputs_do_not_mix_witness :
  exists w,
    main (sample_env (py "secret")) (start sample_files) = (Return tt, w)
    /\ fs w !! destination geth_eth
       = Some (File true
                 (py "ds=InfluxDB_eth title=Geth Dashboard Ethereum uid=QC1Arp5WkInfluxDB_eth"))
    /\ fs w !! destination geth_opt
       = Some (File true
                 (py "ds=InfluxDB title=Geth Dashboard Optimism uid=QC1Arp5WkInfluxDB")).
Proof.
  destruct (outputs_do_not_mix (sample_env (py "secret")) sample_files
              [py "ds=${DS_INFLUXDB} title=Geth Dashboard uid=QC1Arp5Wk";
               py "ds=${DS_INFLUXDB} title=Geth Dashboard uid=QC1Arp5Wk"]
              0 1 geth_eth geth_opt
              (py "ds=${DS_INFLUXDB} title=Geth Dashboard uid=QC1Arp5Wk")
              (py "ds=${DS_INFLUXDB} title=Geth Dashboard uid=QC1Arp5Wk"))
    as ((w & Hrun & H1 & H2) & _).
  - exists (py "secret"). vm_compute; reflexivity.
  - vm_compute; reflexivity.
  - apply sample_all_well.
  - reflexivity.
  - reflexivity.
  - vm_compute. discriminate.
  - vm_compute. discriminate.
  - reflexivity.
  - reflexivity.
  - exists w. split; [exact Hrun|]. split; [exact H1|exact H2].
Defined.

(** C4 (abort on the first failure). If the request, the decoding or the
    write fails for the descriptor at some position of the list, the run ends
    there with that exception: nothing is requested, substituted or written
    for the descriptors after it, no request is sent again, and the files
    written for the descriptors before it stay as they were written. *)
Theorem first_failure_aborts E files pre d post w1 e w2 :
  is_Some (environ E !! py "GF_SECURITY_ADMIN_PASSWORD") ->
  files !! dashboard_path = Some (Dir true) ->
  dashboard_list = pre ++ d :: post ->
  for_each pre (process E) (start files) = (Return tt, w1) ->
  process E d w1 = (Raise e, w2) ->
  main E (start files) = (Raise e, w2)
  /\ requests w2 = S (length pre)
  /\ (exists k text,
        1 <= k
        /\ trace w2
           = trace w1 ++ take k [HttpGet (url d); OpenW (destination d);
                                 WriteData (destination d)
                                           (substitute d text)])
  /\ forall x, x ∈ pre -> fs w2 !! destination x = fs w1 !! destination x.
Proof.
  intros Hc Hd Hlist Hpre Hfail.
  destruct (process_events E d w1 _ w2 Hfail) as [Hreq Hev].
  apply loop_requests in Hpre as Hcount. cbn [start requests] in Hcount.
  split_and!.
  - rewrite main_past_gates, Hlist by done. by eapply loop_aborts.
  - lia.
  - done.
  - intros x Hx. eapply process_frame; [done|].
    pose proof destinations_distinct as Hnd.
    rewrite Hlist, fmap_app, fmap_cons in Hnd.
    apply NoDup_app in Hnd as (_ & Hnd & _).
    intros Heq. apply (Hnd (destination x)).
    + by apply list_elem_of_fmap_2.
    + rewrite Heq. by left.
Qed.

Lemma first_failure_aborts_witness :
  main flaky_env (start sample_files)
  = (Raise URLError,
     (process flaky_env geth_opt
        (stored geth_eth
           (py "ds=${DS_INFLUXDB} title=Geth Dashboard uid=QC1Arp5Wk")
           (start sample_files))).2)
  /\ requests
       (process flaky_env geth_opt
          (stored geth_eth
             (py "ds=${DS_INFLUXDB} title=Geth Dashboard uid=QC1Arp5Wk")
             (start sample_files))).2
     = 2.
Proof.
  destruct (first_failure_aborts flaky_env sample_files [geth_eth] geth_opt []
              (stored geth_eth
                 (py "ds=${DS_INFLUXDB} title=Geth Dashboard uid=QC1Arp5Wk")
                 (start sample_files))
              URLError
              (process flaky_env geth_opt
                 (stored geth_eth
                    (py "ds=${DS_INFLUXDB} title=Geth Dashboard uid=QC1Arp5Wk")
                    (start sample_files))).2)
    as (Hrun & Hreq & _).
  - exists (py "secret"). vm_compute; reflexivity.
  - vm_compute; reflexivity.
  - reflexivity.
  - vm_compute; reflexivity.
  - vm_compute; reflexivity.
  - split; [exact Hrun|exact Hreq].
Defined.

(** * Further properties of the script *)

(** ** Occurrences through a replacement *)

Lemma occurs_cons x c s :
  occurs x (c :: s) = startswith x (c :: s) || occurs x s.
Proof. done. Qed.

Lemma occurs_here x s : startswith x s = true -> occurs x s = true.
Proof. intros Hs. destruct s; cbn [occurs]; by rewrite Hs. Qed.

Lemma occurs_app_l x u v : occurs x v = true -> occurs x (u ++ v) = true.
Proof.
  intros Hv. induction u as [|c u IH]; [done|].
  rewrite <- app_comm_cons, occurs_cons, IH. apply orb_true_r.
Qed.

Lemma occurs_app_r x u v : occurs x (u ++ v) = false -> occurs x v = false.
Proof.
  intros Huv. destruct (occurs x v) eqn:Hv; [|done].
  by rewrite (occurs_app_l _ u _ Hv) in Huv.
Qed.

Lemma startswith_app_agree (x u v : str) :
  startswith x (u ++ v) = true -> agree x u = true.
Proof.
  unfold agree. revert u. induction x as [|a x IH]; intros u Hs; [done|].
  destruct u as [|b u]; [by rewrite orb_true_r|].
  apply (startswith_cons_inv a x b (u ++ v)) in Hs as [-> Hs].
  cbn [startswith]. rewrite !decide_True by done. by apply IH.
Qed.

(** A stretch that no occurrence can start in adds no occurrence. *)
Lemma occurs_stretch x new v :
  forallb (fun n2 => negb (agree x n2)) (suffixes new) = true ->
  occurs x v = false ->
  occurs x (new ++ v) = false.
Proof.
  intros Hnew Hv. induction new as [|c new IH]; [done|].
  cbn [suffixes forallb] in Hnew.
  apply andb_true_iff in Hnew as [Hc Hnew].
  rewrite <- app_comm_cons, occurs_cons, (IH Hnew), orb_false_r.
  apply not_true_is_false. intros Hs.
  change (c :: new ++ v) with ((c :: new) ++ v) in Hs.
  apply startswith_app_agree in Hs. by rewrite Hs in Hc.
Qed.

(** What the result starts with, the input started with, when it cannot run
    into what the replacement puts in. *)
Lemma startswith_through a old new y t :
  forallb (fun y2 => negb (agree y2 new)) (suffixes y) = true ->
  startswith y (replace (a :: old) new t) = true ->
  startswith y t = true.
Proof.
  revert t. induction y as [|c y IH]; intros t Hy Hs; [done|].
  cbn [suffixes forallb] in Hy. apply andb_true_iff in Hy as [Hc Hy].
  destruct t as [|e t]; [done|].
  destruct (startswith (a :: old) (e :: t)) eqn:Hm.
  - apply startswith_inv in Hm as [t' Heq].
    rewrite Heq, replace_hit in Hs.
    apply startswith_app_agree in Hs. by rewrite Hs in Hc.
  - rewrite (replace_miss _ _ _ _ _ Hm) in Hs.
    apply startswith_cons_inv in Hs as [-> Hs].
    cbn [startswith]. rewrite decide_True by done. by apply IH.
Qed.

Lemma clear_of_suffixes x new c y :
  x = c :: y ->
  forallb (fun x2 => negb (agree x2 new)) (suffixes x) = true ->
  forallb (fun x2 => negb (agree x2 new)) (suffixes y) = true.
Proof.
  intros -> Hx. cbn [suffixes forallb] in Hx. by apply andb_true_iff in Hx as [_ ?].
Qed.

(** A replacement brings no occurrence of [x] into a text that had none. *)
Lemma replace_brings_none a old new x s :
  clear_of x new = true ->
  occurs x s = false ->
  occurs x (replace (a :: old) new s) = false.
Proof.
  unfold clear_of. intros [Hx Hnew]%andb_true_iff.
  remember (length s) as k eqn:Hk. revert s Hk.
  induction k as [k IH] using lt_wf_ind. intros s -> Hs.
  destruct s as [|c t]; [done|].
  destruct (startswith (a :: old) (c :: t)) eqn:Hm.
  - apply startswith_inv in Hm as [t' Heq]. rewrite Heq in *.
    rewrite replace_hit. apply occurs_stretch; [done|].
    apply (IH (length t')); [|done|by eapply occurs_app_r].
    rewrite length_app. cbn [length]. lia.
  - rewrite (replace_miss _ _ _ _ _ Hm), occurs_cons.
    rewrite occurs_cons in Hs. apply orb_false_iff in Hs as [Hhere Ht].
    rewrite (IH (length t)); [|cbn [length]; lia|done|done].
    rewrite orb_false_r. apply not_true_is_false. intros Hs.
    destruct x as [|x0 x]; [done|].
    apply startswith_cons_inv in Hs as [-> Hs].
    apply startswith_through in Hs; [|by eapply clear_of_suffixes].
    cbn [startswith] in Hhere. by rewrite decide_True, Hs in Hhere.
Qed.

(** A replacement leaves no occurrence of what it replaces. *)
Lemma replace_leaves_none a old new s :
  clear_of (a :: old) new = true ->
  occurs (a :: old) (replace (a :: old) new s) = false.
Proof.
  unfold clear_of. intros [Hx Hnew]%andb_true_iff.
  remember (length s) as k eqn:Hk. revert s Hk.
  induction k as [k IH] using lt_wf_ind. intros s ->.
  destruct s as [|c t]; [done|].
  destruct (startswith (a :: old) (c :: t)) eqn:Hm.
  - apply startswith_inv in Hm as [t' Heq]. rewrite Heq in *.
    rewrite replace_hit. apply occurs_stretch; [done|].
    apply (IH (length t')); [|done].
    rewrite length_app. cbn [length]. lia.
  - rewrite (replace_miss _ _ _ _ _ Hm), occurs_cons.
    rewrite (IH (length t)); [|cbn [length]; lia|done].
    rewrite orb_false_r. apply not_true_is_false. intros Hs.
    apply startswith_cons_inv in Hs as [-> Hs].
    apply startswith_through in Hs; [|by eapply clear_of_suffixes].
    cbn [startswith] in Hm. by rewrite decide_True, Hs in Hm.
Qed.

(** A text with no occurrence of [old] is left as it is. *)
Lemma replace_absent a old new s :
  occurs (a :: old) s = false -> replace (a :: old) new s = s.
Proof.
  induction s as [|c t IH]; [done|].
  rewrite occurs_cons. intros [Hhere Ht]%orb_false_iff.
  rewrite replace_miss by done. by rewrite IH.
Qed.

Lemma occurs_pass a tok x t :
  a ∉ x -> occurs (a :: tok) (x ++ t) = occurs (a :: tok) t.
Proof.
  induction x as [|c x IH]; intros Ha; [done|].
  apply not_elem_of_cons in Ha as [Hac Ha].
  rewrite <- app_comm_cons, occurs_cons, IH by done.
  cbn [startswith]. by rewrite decide_False.
Qed.

Lemma first_match_some (rules : list (str * str)) s p r :
  first_match rules s = Some (p, r) ->
  (p, r) ∈ rules /\ p <> [] /\ startswith p s = true.
Proof.
  induction rules as [|[p' r'] rules IH]; [done|].
  cbn [first_match]. intros Heq. case_match eqn:Hm.
  - simplify_eq. apply andb_true_iff in Hm as [Hne Hs].
    apply bool_decide_eq_true in Hne. split_and!; [by left|done..].
  - destruct (IH Heq) as (? & ? & ?).
    split_and!; [by right|done..].
Qed.

Lemma first_match_none (rules : list (str * str)) s p r :
  first_match rules s = None ->
  (p, r) ∈ rules -> p <> [] -> startswith p s = false.
Proof.
  induction rules as [|[p' r'] rules IH]; intros Hm Hin Hne.
  - by apply elem_of_nil in Hin.
  - cbn [first_match] in Hm. case_match eqn:Hs; [done|].
    apply elem_of_cons in Hin as [Heq|Hin]; [|by apply IH].
    simplify_eq. by rewrite bool_decide_true in Hs.
Qed.

(** In one pass, a token that occurs in the input leaves what its rule puts
    in, provided no other token holds its first character. *)
Lemma one_pass_keeps (rules : list (str * str)) a tok by_ s :
  (forall p r, (p, r) ∈ rules -> (p = a :: tok /\ r = by_) \/ a ∉ p) ->
  (a :: tok, by_) ∈ rules ->
  occurs (a :: tok) s = true ->
  occurs by_ (one_pass rules 0 s) = true.
Proof.
  intros Hrules Hin.
  remember (length s) as k eqn:Hk. revert s Hk.
  induction k as [k IH] using lt_wf_ind. intros s -> Hs.
  destruct s as [|c t]; [done|].
  destruct (first_match rules (c :: t)) as [[p r]|] eqn:Hm.
  - destruct (first_match_some _ _ _ _ Hm) as (Hp & Hne & Hst).
    destruct p as [|p0 p]; [done|].
    apply startswith_inv in Hst as [t' Heq]. rewrite Heq in *.
    rewrite (one_pass_hit _ _ _ r) by done.
    destruct (Hrules _ _ Hp) as [[_ ->]|Ha].
    + apply occurs_here, startswith_app.
    + apply occurs_app_l. apply (IH (length t')); [|done|].
      * rewrite length_app. cbn [length]. lia.
      * by rewrite occurs_pass in Hs.
  - rewrite one_pass_miss by done. rewrite occurs_cons in Hs.
    rewrite (first_match_none _ _ _ _ Hm Hin) in Hs by done.
    rewrite occurs_cons, (IH (length t)); [|cbn [length]; lia|done|done].
    apply orb_true_r.
Qed.

Lemma dashboard_list_placeholder_stays_out d :
  d ∈ dashboard_list -> placeholder_stays_out d = true.
Proof.
  unfold dashboard_list. rewrite !elem_of_cons, elem_of_nil.
  by intros [->|[->|[]]]; vm_compute.
Qed.

(** The condition is needed: an empty replacement lets the two parts of a
    placeholder cut in two by another one meet. *)
Remark placeholder_can_come_back :
  substitute {| name := py "N"; filename := py "f"; url := py "u";
                replacement := [] |}
             (py "${DS_${DS_INFLUXDB}INFLUXDB}") = py "${DS_INFLUXDB}".
Proof. reflexivity. Qed.

(** ** The three replacements *)

(** X1. For every descriptor that keeps the passes apart, and not only for
    the two of [dashboard_list], the three chained replacements of lines 34
    to 36 give, on every text, the result of the single pass over the input
    in which each token is replaced as its rule says. *)
Theorem chained_replacements_are_one_pass d text :
  apart d = true ->
  substitute d text = one_pass (rules_of d) 0 text.
Proof. intros Hd. by rewrite substitute_one_pass. Qed.

Lemma chained_replacements_are_one_pass_witness :
  apart geth_opt = true
  /\ substitute geth_opt (py "Geth Dashboard ${DS_INFLUXDB}")
     = one_pass (rules_of geth_opt) 0 (py "Geth Dashboard ${DS_INFLUXDB}").
Proof.
  split; [reflexivity|].
  apply (chained_replacements_are_one_pass geth_opt); reflexivity.
Defined.

(** X2. A text in which none of the three tokens occurs is left as it is by
    lines 34 to 36, whatever the descriptor. *)
Theorem text_without_tokens_is_unchanged d text :
  occurs (py "${DS_INFLUXDB}") text = false ->
  occurs (py "Geth Dashboard") text = false ->
  occurs (py "QC1Arp5Wk") text = false ->
  substitute d text = text.
Proof.
  intros HP HT HI. unfold substitute.
  change (py "${DS_INFLUXDB}") with (chr "$" :: py "{DS_INFLUXDB}") in *.
  change (py "Geth Dashboard") with (chr "G" :: py "eth Dashboard") in *.
  change (py "QC1Arp5Wk") with (chr "Q" :: py "C1Arp5Wk") in *.
  by rewrite (replace_absent _ _ _ _ HP), (replace_absent _ _ _ _ HT),
    (replace_absent _ _ _ _ HI).
Qed.

Lemma text_without_tokens_is_unchanged_witness :
  substitute geth_eth (py "{ $DS_INFLUXDB, Geth  Dashboard, QC1Arp5W }")
  = py "{ $DS_INFLUXDB, Geth  Dashboard, QC1Arp5W }".
Proof.
  apply (text_without_tokens_is_unchanged geth_eth); reflexivity.
Defined.

(** X3. When what the three replacements put in cannot take part in a
    placeholder, as is the case for both descriptors of [dashboard_list]
    ([dashboard_list_placeholder_stays_out]), the text that lines 34 to 36
    give holds no placeholder [${DS_INFLUXDB}] any more, whatever the text
    downloaded. *)
Theorem no_placeholder_is_left d text :
  placeholder_stays_out d = true ->
  occurs (py "${DS_INFLUXDB}") (substitute d text) = false.
Proof.
  unfold placeholder_stays_out, substitute.
  rewrite !andb_true_iff. intros [[HR HN] HI].
  change (py "${DS_INFLUXDB}") with (chr "$" :: py "{DS_INFLUXDB}") in *.
  change (py "Geth Dashboard") with (chr "G" :: py "eth Dashboard").
  change (py "QC1Arp5Wk" ++ replacement d)
    with (chr "Q" :: py "C1Arp5Wk" ++ replacement d) in *.
  change (py "QC1Arp5Wk") with (chr "Q" :: py "C1Arp5Wk").
  apply replace_brings_none; [done|].
  apply replace_brings_none; [done|].
  by apply replace_leaves_none.
Qed.

Lemma no_placeholder_is_left_witness :
  placeholder_stays_out geth_eth = true
  /\ occurs (py "${DS_INFLUXDB}")
       (substitute geth_eth (py "${DS_${DS_INFLUXDB}NFLUXDB} ${DS_INFLUXDB}"))
     = false.
Proof.
  split; [reflexivity|].
  apply (no_placeholder_is_left geth_eth); reflexivity.
Defined.

(** X4. For a descriptor that keeps the passes apart, a token that occurs in
    the downloaded text leaves its mark in the text written: the replacement
    for the placeholder, the name for the title, and the identifier followed
    by the replacement for the identifier. *)
Theorem tokens_leave_their_replacement d text :
  apart d = true ->
  (occurs (py "${DS_INFLUXDB}") text = true ->
   occurs (replacement d) (substitute d text) = true)
  /\ (occurs (py "Geth Dashboard") text = true ->
      occurs (name d) (substitute d text) = true)
  /\ (occurs (py "QC1Arp5Wk") text = true ->
      occurs (py "QC1Arp5Wk" ++ replacement d) (substitute d text) = true).
Proof.
  intros Hd. rewrite (substitute_one_pass d text Hd). unfold substituted.
  split_and!; intros Hocc.
  - apply (one_pass_keeps _ (chr "$") (py "{DS_INFLUXDB}")); [| |done].
    + intros p r Hp. unfold rules_of in Hp.
      rewrite !elem_of_cons, elem_of_nil in Hp.
      destruct Hp as [Hp | [Hp | [Hp | []]]]; simplify_eq;
        [by left | right; compute_done ..].
    + unfold rules_of. rewrite !elem_of_cons. auto.
  - apply (one_pass_keeps _ (chr "G") (py "eth Dashboard")); [| |done].
    + intros p r Hp. unfold rules_of in Hp.
      rewrite !elem_of_cons, elem_of_nil in Hp.
      destruct Hp as [Hp | [Hp | [Hp | []]]]; simplify_eq;
        [right; compute_done | by left | right; compute_done].
    + unfold rules_of. rewrite !elem_of_cons. auto.
  - apply (one_pass_keeps _ (chr "Q") (py "C1Arp5Wk")); [| |done].
    + intros p r Hp. unfold rules_of in Hp.
      rewrite !elem_of_cons, elem_of_nil in Hp.
      destruct Hp as [Hp | [Hp | [Hp | []]]]; simplify_eq;
        [right; compute_done | right; compute_done | by left].
    + unfold rules_of. rewrite !elem_of_cons. auto.
Qed.

Lemma tokens_leave_their_replacement_witness :
  apart geth_eth = true
  /\ occurs (py "QC1Arp5Wk") (py "uid: QC1Arp5Wk") = true
  /\ occurs (py "QC1Arp5WkInfluxDB_eth")
       (substitute geth_eth (py "uid: QC1Arp5Wk")) = true.
Proof.
  split; [reflexivity|]. split; [reflexivity|].
  apply (tokens_leave_their_replacement geth_eth (py "uid: QC1Arp5Wk"));
    reflexivity.
Defined.

(** ** The path of the file *)

Lemma destination_relative d :
  relative (filename d) = true ->
  destination d = dashboard_path ++ py "/" ++ filename d.
Proof.
  unfold relative, destination, os_path_join.
  rewrite negb_true_iff. intros ->.
  assert (bool_decide (dashboard_path = []) || endswith (py "/") dashboard_path
          = false) as -> by (by vm_compute).
  done.
Qed.

Lemma destination_absolute d :
  startswith (py "/") (destination d) = true.
Proof.
  destruct (relative (filename d)) eqn:Hr.
  - by rewrite destination_relative.
  - unfold relative in Hr. apply negb_false_iff in Hr.
    unfold destination, os_path_join. by rewrite Hr.
Qed.

(** X5. For file names that are relative, [os.path.join] gives the path
    [dashboard_path/filename], so descriptors whose file names differ have
    different path strings passed to [open]. This is about the strings only:
    two of them can still name one file, as [a] and [./a] do. *)
Theorem relative_names_give_distinct_paths d1 d2 :
  relative (filename d1) = true ->
  relative (filename d2) = true ->
  filename d1 <> filename d2 ->
  destination d1 <> destination d2
  /\ destination d1 = dashboard_path ++ py "/" ++ filename d1
  /\ destination d2 = dashboard_path ++ py "/" ++ filename d2.
Proof.
  intros H1 H2 Hne.
  rewrite (destination_relative d1 H1), (destination_relative d2 H2).
  split; [|done]. intros Heq. by do 2 apply app_inv_head in Heq.
Qed.

Lemma relative_names_give_distinct_paths_witness :
  destination geth_eth <> destination geth_opt
  /\ destination geth_eth = py "/grafana-dashboards/single_geth_eth.json"
  /\ destination geth_opt = py "/grafana-dashboards/single_geth_opt.json".
Proof.
  apply (relative_names_give_distinct_paths geth_eth geth_opt);
    [reflexivity | reflexivity | by vm_compute].
Defined.

(** X6. A file name that is the full path of another descriptor's file
    names that same file: [os.path.join] drops the directory in front of an
    absolute name, so different file names do not always give different
    files. *)
Theorem full_path_names_the_same_file d d' :
  filename d' = destination d ->
  destination d' = destination d.
Proof.
  intros Hf. unfold destination at 1. rewrite Hf.
  unfold os_path_join at 1. by rewrite destination_absolute.
Qed.

Lemma full_path_names_the_same_file_witness :
  filename {| name := py "Other"; url := py "u"; replacement := py "r";
              filename := py "/grafana-dashboards/single_geth_eth.json" |}
  <> filename geth_eth
  /\ destination {| name := py "Other"; url := py "u"; replacement := py "r";
                    filename := py "/grafana-dashboards/single_geth_eth.json" |}
     = destination geth_eth.
Proof.
  split; [by vm_compute|].
  apply (full_path_names_the_same_file geth_eth). reflexivity.
Defined.

(** ** The decoding of the body *)

(** X7. A body made of ASCII bytes only is decoded to the same characters,
    one for each byte. *)
Theorem ascii_body_decodes_to_itself (body : bytes) :
  Forall (fun b => (Byte.to_N b < 0x80)%N) body ->
  utf8_decode body = Some (Byte.to_N <$> body).
Proof.
  unfold utf8_decode. induction 1 as [|b body Hb _ IH]; [done|].
  cbn [utf8_scan]. unfold utf8_lead.
  apply N.ltb_lt in Hb. rewrite Hb, IH. done.
Qed.

Lemma ascii_body_decodes_to_itself_witness :
  utf8_decode sample_body = Some (Byte.to_N <$> sample_body).
Proof.
  apply (ascii_body_decodes_to_itself sample_body).
  unfold sample_body, ascii_bytes. cbn [list_ascii_of_string List.map].
  repeat constructor.
Defined.

(** ** The failures of one descriptor *)

Lemma process_download_fails E d w :
  fetched E (requests w) d = None ->
  exists e,
    process E d w
    = (Raise e, {| fs := fs w; trace := trace w ++ [HttpGet (url d)];
                   requests := S (requests w); opens := opens w |}).
Proof.
  unfold fetched, process, bind, urlopen, decode_utf8, read. intros Hf.
  destruct (net E (requests w) (url d)) as [|b].
  - by exists URLError.
  - rewrite Hf. by exists UnicodeDecodeError.
Qed.

(** X8. When the download fails, be it the request or the decoding of its
    body, the loop body ends with an exception before line 37 is reached: no
    path is opened or written, and every file keeps what it held. *)
Theorem failed_download_opens_no_file E d w :
  fetched E (requests w) d = None ->
  exists e w',
    process E d w = (Raise e, w')
    /\ fs w' = fs w
    /\ List.filter is_file_write (trace w')
       = List.filter is_file_write (trace w).
Proof.
  intros Hf. destruct (process_download_fails E d w Hf) as [e ->].
  eexists _, _. split; [reflexivity|]. cbn [fs trace].
  split; [done|]. rewrite List.filter_app. cbn. by rewrite app_nil_r.
Qed.

Lemma failed_download_opens_no_file_witness :
  exists e w',
    process garbled_env geth_eth
      (start (<[destination geth_eth := File true (py "old text")]>
                sample_files))
    = (Raise e, w')
    /\ fs w' = <[destination geth_eth := File true (py "old text")]>
                 sample_files
    /\ List.filter is_file_write (trace w') = [].
Proof.
  destruct (failed_download_opens_no_file garbled_env geth_eth
              (start (<[destination geth_eth := File true (py "old text")]>
                        sample_files)))
    as (e & w' & Hrun & Hfs & Htr); [reflexivity|].
  exists e, w'. split; [exact Hrun|]. split; [exact Hfs|exact Htr].
Defined.

(** X9. When the destination is a directory or a file closed to writing, or
    the opening fails, the loop body ends with an exception after the request
    and the attempt to open: nothing is written and every file keeps what it
    held. *)
Theorem refused_open_keeps_the_files E d w text :
  fetched E (requests w) d = Some text ->
  openable (fs w) (destination d) = false \/ disk E (opens w) = OpenFails ->
  exists e,
    (e = IsADirectoryError \/ e = PermissionError \/ e = OSError)
    /\ process E d w
       = (Raise e,
          {| fs := fs w;
             trace := trace w ++ [HttpGet (url d); OpenW (destination d)];
             requests := S (requests w); opens := S (opens w) |}).
Proof.
  unfold fetched, openable, process, bind, urlopen, decode_utf8, read.
  intros Hf Hor.
  destruct (net E (requests w) (url d)) as [|b]; [done|].
  rewrite Hf. unfold ret, open_w.
  cbn [fs trace requests opens]. rewrite <- app_assoc. cbn [app].
  destruct (fs w !! destination d) as [[[] ?|?]|] eqn:Hn.
  - destruct Hor as [?|Hk]; [done|]. rewrite Hk. exists OSError. auto.
  - exists PermissionError. auto.
  - exists IsADirectoryError. auto.
  - destruct Hor as [?|Hk]; [done|]. rewrite Hk. exists OSError. auto.
Qed.

Lemma refused_open_keeps_the_files_witness :
  exists e,
    (e = IsADirectoryError \/ e = PermissionError \/ e = OSError)
    /\ process locked_env geth_eth (start sample_files)
       = (Raise e,
          {| fs := sample_files;
             trace := [HttpGet (url geth_eth); OpenW (destination geth_eth)];
             requests := 1; opens := 1 |}).
Proof.
  apply (refused_open_keeps_the_files locked_env geth_eth (start sample_files)
           (py "ds=${DS_INFLUXDB} title=Geth Dashboard uid=QC1Arp5Wk")).
  - reflexivity.
  - right. reflexivity.
Defined.

Lemma process_write_fails E d w text k :
  fetched E (requests w) d = Some text ->
  openable (fs w) (destination d) = true ->
  disk E (opens w) = WriteFails k ->
  exists e w',
    process E d w = (Raise e, w')
    /\ fs w' = <[destination d := File true (take k (substitute d text))]> (fs w).
Proof.
  unfold fetched, openable, process, bind, urlopen, decode_utf8, read.
  intros Hf Ho Hk.
  destruct (net E (requests w) (url d)) as [|b]; [done|].
  rewrite Hf. unfold ret, open_w, write, close, set_fs, log.
  cbn [fs trace requests opens h_path h_rank].
  destruct (fs w !! destination d) as [[[] ?|?]|]; try done;
    repeat (rewrite Hk; cbn [fs trace requests opens h_path h_rank]);
    eexists _, _; (split; [reflexivity|]); cbn [fs]; by rewrite written_once.
Qed.

(** X10. When the write fails part of the way, the loop body ends with an
    exception, and what the files then hold does not depend on what the
    destination held before: that content was lost when line 37 opened the
    file, although the new text is not all there. *)
Theorem failed_write_loses_the_old_content E d w text k old1 old2 :
  fetched E (requests w) d = Some text ->
  disk E (opens w) = WriteFails k ->
  (exists e, (process E d (holding d old1 w)).1 = Raise e)
  /\ fs (process E d (holding d old1 w)).2
     = fs (process E d (holding d old2 w)).2.
Proof.
  intros Hf Hk.
  assert (forall old, openable (fs (holding d old w)) (destination d) = true)
    as Ho.
  { intros old. unfold openable, holding, set_fs. cbn [fs].
    by rewrite lookup_insert_eq. }
  destruct (process_write_fails E d (holding d old1 w) text k)
    as (e1 & w1 & -> & Hw1); [done..|].
  destruct (process_write_fails E d (holding d old2 w) text k)
    as (e2 & w2 & -> & Hw2); [done..|].
  cbn [fst snd]. split; [by eexists|].
  rewrite Hw1, Hw2. unfold holding, set_fs. cbn [fs].
  by rewrite !insert_insert_eq.
Qed.

Lemma failed_write_loses_the_old_content_witness :
  (exists e,
     (process full_disk_env geth_eth
        (holding geth_eth (py "a complete dashboard") (start sample_files))).1
     = Raise e)
  /\ fs (process full_disk_env geth_eth
           (holding geth_eth (py "a complete dashboard")
                    (start sample_files))).2
     = fs (process full_disk_env geth_eth
             (holding geth_eth [] (start sample_files))).2.
Proof.
  apply (failed_write_loses_the_old_content full_disk_env geth_eth
           (start sample_files)
           (py "ds=${DS_INFLUXDB} title=Geth Dashboard uid=QC1Arp5Wk") 3);
    reflexivity.
Defined.

(** ** The loop, whatever happens *)

Lemma stored_all_last ds texts w i d t :
  ds !! i = Some d -> texts !! i = Some t ->
  (forall j d', i < j -> ds !! j = Some d' -> destination d' <> destination d) ->
  fs (stored_all ds texts w) !! destination d
  = Some (File true (substitute d t)).
Proof.
  revert texts w i. induction ds as [|x ds IH]; intros texts w i Hd Ht Hlater;
    [done|].
  destruct texts as [|y texts]; [done|].
  cbn [stored_all]. destruct i as [|i]; cbn in Hd, Ht.
  - simplify_eq. rewrite stored_all_frame.
    + unfold stored. cbn [fs]. by rewrite lookup_insert_eq.
    + intros Hin. apply list_elem_of_fmap in Hin as (d' & Heq & Hin).
      apply list_elem_of_lookup in Hin as [j Hj].
      apply (Hlater (S j) d'); [lia|done|done].
  - eapply IH; [done|done|]. intros j d' Hij Hj.
    apply (Hlater (S j) d'); [lia|done].
Qed.

(** The loop body raises neither [NameError] nor [SystemExit]. *)
Lemma process_ends E d w r w' :
  process E d w = (r, w') ->
  (forall x, r <> Raise (NameError x)) /\ (forall n, r <> Raise (SystemExit n)).
Proof.
  unfold process, bind, urlopen, decode_utf8, read, ret, raise, open_w,
    write, close, set_fs, log.
  intros Hp. run_cases; by split.
Qed.

(** The events of one descriptor are those of a complete processing, all of
    them after a normal end and the first ones after a failure. *)
Lemma process_shape E d w r w' :
  process E d w = (r, w') ->
  requests w' = S (requests w)
  /\ ((r = Return tt
       /\ exists text,
            fetched E (requests w) d = Some text
            /\ trace w' = trace w ++ events_of d text)
      \/ (exists e k text,
            r = Raise e /\ 1 <= k <= 3
            /\ trace w' = trace w ++ take k (events_of d text))).
Proof.
  unfold process, bind, urlopen, decode_utf8, read, ret, raise, open_w,
    write, close, set_fs, log, fetched, events_of.
  intros Hp.
  run_cases; cbn [trace requests]; (split; [done|]); rewrite <- ?app_assoc;
    first [ left; split; [done|]; eexists; split; [eassumption|reflexivity]
          | right; eexists _, 1, []; split_and!; [done|lia|lia|reflexivity]
          | right; eexists _, 2, []; split_and!; [done|lia|lia|reflexivity]
          | right; eexists _, 3, _; split_and!; [done|lia|lia|reflexivity] ].
Qed.

(** The requests and the openings of one descriptor: one request, and at most
    one opening, which a normal end has. *)
Lemma process_trace E d w r w' :
  process E d w = (r, w') ->
  List.filter is_request (trace w')
  = List.filter is_request (trace w) ++ [HttpGet (url d)]
  /\ exists j,
       j <= 1
       /\ omap opened (trace w') = omap opened (trace w) ++ take j [destination d]
       /\ (r = Return tt -> j = 1)
       /\ (forall line, Print line ∈ trace w' -> Print line ∈ trace w).
Proof.
  unfold process, bind, urlopen, decode_utf8, read, ret, raise, open_w,
    write, close, set_fs, log.
  intros Hp.
  run_cases; cbn [trace]; rewrite <- ?app_assoc, ?List.filter_app, ?omap_app;
    cbn [List.filter is_request omap opened app]; (split; [done|]);
    first [ exists 0; (split_and!; [lia|by rewrite ?app_nil_r|done|])
          | exists 1; (split_and!; [lia|done|done|]) ];
    (intros line; rewrite !elem_of_app, !elem_of_cons, elem_of_nil;
     intros [?|Hin]; [done|]; destruct_or?; done).
Qed.

Section LoopAlways.
Variable E : Env.
Implicit Types (w : World) (d : dashboard) (ds : list dashboard).

Lemma loop_ends ds w r w' :
  for_each ds (process E) w = (r, w') ->
  (forall x, r <> Raise (NameError x)) /\ (forall n, r <> Raise (SystemExit n)).
Proof.
  revert w. induction ds as [|d ds IH]; intros w Hrun.
  - cbn in Hrun. unfold ret in Hrun. by simplify_eq.
  - cbn [for_each] in Hrun. unfold bind in Hrun.
    destruct (process E d w) as [[[]|e] w0] eqn:Hd; [by eapply IH|].
    simplify_eq. by eapply process_ends.
Qed.

(** The events of a loop: the complete processing of the first [m]
    descriptors, each with the text downloaded for it, then, after a failure,
    the first events of the descriptor that failed. *)
Lemma loop_shape ds w r w' :
  for_each ds (process E) w = (r, w') ->
  exists m texts k text,
    length texts = m /\ m <= length ds
    /\ (forall i d t, ds !! i = Some d -> texts !! i = Some t ->
          fetched E (requests w + i) d = Some t)
    /\ trace w'
       = trace w
         ++ flat_map (fun dt => events_of dt.1 dt.2) (zip (take m ds) texts)
         ++ take k (from_option (fun d => events_of d text) [] (ds !! m))
    /\ (r = Return tt -> m = length ds)
    /\ (forall e, r = Raise e -> m < length ds /\ 1 <= k <= 3).
Proof.
  revert w. induction ds as [|d ds IH]; intros w Hrun.
  - cbn in Hrun. unfold ret in Hrun. simplify_eq. exists 0, [], 0, [].
    cbn. rewrite app_nil_r. split_and!; [done|lia|done|done|done|done].
  - cbn [for_each] in Hrun. unfold bind in Hrun.
    destruct (process E d w) as [[[]|e] w0] eqn:Hd.
    + apply process_shape in Hd as [Hreq [[_ (t0 & Hf0 & Htr0)]|Hfail]];
        [|by destruct Hfail as (? & ? & ? & ? & _)].
      apply IH in Hrun
        as (m & texts & k & text & Hlen & Hm & Hf & Htr & Hend & Hexn).
      exists (S m), (t0 :: texts), k, text.
      split_and!.
      * cbn [length]. by rewrite Hlen.
      * cbn [length]. lia.
      * intros [|i] d' t' Hi Ht; cbn in Hi, Ht; simplify_eq.
        -- by rewrite Nat.add_0_r.
        -- rewrite <- Nat.add_succ_comm, <- Hreq. by eapply Hf.
      * rewrite Htr, Htr0. cbn [take zip zip_with flat_map fst snd lookup].
        by rewrite <- !app_assoc.
      * intros Hr. cbn [length]. by rewrite Hend.
      * intros e He. destruct (Hexn e He). cbn [length]. lia.
    + simplify_eq.
      apply process_shape in Hd as [Hreq [[? _]|(e' & k & text & _ & Hk & Htr)]];
        [done|].
      exists 0, [], k, text. cbn. split_and!; [done|lia|done|done|done|].
      intros ? _. lia.
Qed.

(** Every event of a loop is one of a descriptor of the list. *)
Lemma loop_file_events ds w r w' e :
  for_each ds (process E) w = (r, w') ->
  e ∈ trace w' ->
  e ∈ trace w \/ exists d text, d ∈ ds /\ e ∈ events_of d text.
Proof.
  revert w. induction ds as [|d ds IH]; intros w Hrun Hin.
  - cbn in Hrun. unfold ret in Hrun. simplify_eq. by left.
  - cbn [for_each] in Hrun. unfold bind in Hrun.
    assert (forall w0 r0, process E d w = (r0, w0) -> e ∈ trace w0 ->
              e ∈ trace w \/ exists d' text, d' ∈ d :: ds /\ e ∈ events_of d' text)
      as Hone.
    { intros w0 r0 Hd Hin0.
      apply process_events in Hd as (_ & k & text & _ & Htr).
      rewrite Htr in Hin0. apply elem_of_app in Hin0 as [?|Hin0]; [by left|].
      right. exists d, text. split; [by left|].
      by apply (subseteq_take k). }
    destruct (process E d w) as [[[]|e0] w0] eqn:Hd.
    + destruct (IH _ Hrun Hin) as [Hin0|(d' & text & Hd' & He)].
      * by eapply Hone.
      * right. exists d', text. split; [by right|done].
    + simplify_eq. by eapply Hone.
Qed.

(** The requests sent are those of the first [k] descriptors and the files
    opened those of the first [j], in the order of the list; only the last
    request may have no opening after it. *)
Lemma loop_trace ds w r w' :
  for_each ds (process E) w = (r, w') ->
  exists k j,
    j <= k <= S j /\ k <= length ds
    /\ List.filter is_request (trace w')
       = List.filter is_request (trace w) ++ (HttpGet <$> take k (url <$> ds))
    /\ omap opened (trace w')
       = omap opened (trace w) ++ take j (destination <$> ds)
    /\ (r = Return tt -> j = length ds)
    /\ (forall line, Print line ∈ trace w' -> Print line ∈ trace w).
Proof.
  revert w. induction ds as [|d ds IH]; intros w Hrun.
  - cbn in Hrun. unfold ret in Hrun. simplify_eq. exists 0, 0.
    cbn [length take fmap list_fmap]. rewrite !app_nil_r.
    split_and!; [lia|lia|lia|done..].
  - cbn [for_each] in Hrun. unfold bind in Hrun.
    destruct (process E d w) as [[[]|e] w0] eqn:Hd.
    + apply process_trace in Hd as (Hreq & j0 & Hj0 & Hop & Hj1 & Hpr).
      rewrite (Hj1 eq_refl) in Hop.
      apply IH in Hrun as (k & j & Hjk & Hk & Hreq' & Hop' & Hend & Hpr').
      exists (S k), (S j). rewrite Hreq', Hop', Hreq, Hop, <- !app_assoc.
      cbn [length]. split_and!; [lia|lia|lia|done|done| |by auto].
      intros Hr. by rewrite Hend.
    + simplify_eq.
      apply process_trace in Hd as (Hreq & j0 & Hj0 & Hop & Hj1 & Hpr).
      exists 1, j0. rewrite Hreq, Hop. cbn [length].
      split_and!; [lia|lia|lia|done| |done|done].
      by destruct j0 as [|[|j0]]; [..|lia].
Qed.
End LoopAlways.

(** ** The script, whatever happens *)

Lemma credential_gate_cases E w :
  (is_Some (environ E !! py "GF_SECURITY_ADMIN_PASSWORD")
   /\ credential_gate E w = (Return tt, w))
  \/ (environ E !! py "GF_SECURITY_ADMIN_PASSWORD" = None
      /\ credential_gate E w
         = (Raise (NameError "sys"),
            log (Print (py "GF_SECURITY_ADMIN_PASSWORD env value is missing, exiting.")) w)).
Proof.
  destruct (environ E !! py "GF_SECURITY_ADMIN_PASSWORD") as [v|] eqn:Hv.
  - left. split; [by eauto|]. apply credential_gate_set. by eauto.
  - right. split; [done|]. by apply credential_gate_unset.
Qed.

Lemma directory_gate_cases w :
  (fs w !! dashboard_path = Some (Dir true)
   /\ directory_gate w = (Return tt, w))
  \/ (unusable (fs w)
      /\ directory_gate w
         = (Raise (NameError "sys"),
            log (Print (py "Dashboard path %s is not writable, exiting")) w)).
Proof.
  destruct (fs w !! dashboard_path) as [[wr c|[]]|] eqn:Hd.
  - right. assert (unusable (fs w)) by (right; left; eauto).
    split; [done|]. by apply directory_gate_unusable.
  - left. split; [done|]. by apply directory_gate_usable.
  - right. assert (unusable (fs w)) by (by right; right).
    split; [done|]. by apply directory_gate_unusable.
  - right. assert (unusable (fs w)) by (by left).
    split; [done|]. by apply directory_gate_unusable.
Qed.

(** A run stops at a gate with its diagnostic, or is the loop. *)
Lemma main_cases E files :
  ((environ E !! py "GF_SECURITY_ADMIN_PASSWORD" = None \/ unusable files)
   /\ exists line,
        main E (start files)
        = (Raise (NameError "sys"), log (Print line) (start files)))
  \/ (is_Some (environ E !! py "GF_SECURITY_ADMIN_PASSWORD")
      /\ files !! dashboard_path = Some (Dir true)
      /\ main E (start files)
         = for_each dashboard_list (process E) (start files)).
Proof.
  unfold main, bind.
  destruct (credential_gate_cases E (start files)) as [[Hc ->]|[Hc ->]];
    [|left; split; [by left|by eexists]].
  destruct (directory_gate_cases (start files)) as [[Hd ->]|[Hd ->]];
    [|left; split; [by right|by eexists]].
  right. done.
Qed.

(** X11. After a loop over any list of descriptors in which all goes well,
    the destination of the last descriptor of the list holds the text of
    that descriptor and nothing of what earlier descriptors wrote: a
    descriptor that has the path of an earlier one overwrites its file. *)
Theorem last_descriptor_overwrites E pre d texts t files :
  length texts = length pre ->
  all_well E (pre ++ [d]) (texts ++ [t]) files ->
  exists w',
    for_each (pre ++ [d]) (process E) (start files) = (Return tt, w')
    /\ fs w' !! destination d = Some (File true (substitute d t)).
Proof.
  intros Hpre [Hlen Hall].
  exists (stored_all (pre ++ [d]) (texts ++ [t]) (start files)). split.
  - apply loop_stores; [done|]. intros k d' Hk. by apply Hall.
  - apply (stored_all_last _ _ _ (length pre)).
    + by apply list_lookup_middle.
    + by apply list_lookup_middle.
    + intros j d' Hj Hd'. apply lookup_lt_Some in Hd'.
      rewrite length_app in Hd'. cbn [length] in Hd'. lia.
Qed.

Lemma last_descriptor_overwrites_witness :
  exists w',
    for_each
      ([geth_eth]
       ++ [{| name := name geth_opt; filename := filename geth_eth;
              url := url geth_opt; replacement := replacement geth_opt |}])
      (process (sample_env (py "secret"))) (start sample_files)
    = (Return tt, w')
    /\ fs w' !! destination geth_eth
       = Some (File true
                 (py "ds=InfluxDB title=Geth Dashboard Optimism uid=QC1Arp5WkInfluxDB")).
Proof.
  apply (last_descriptor_overwrites (sample_env (py "secret")) [geth_eth]
           {| name := name geth_opt; filename := filename geth_eth;
              url := url geth_opt; replacement := replacement geth_opt |}
           [py "ds=${DS_INFLUXDB} title=Geth Dashboard uid=QC1Arp5Wk"]
           (py "ds=${DS_INFLUXDB} title=Geth Dashboard uid=QC1Arp5Wk")
           sample_files).
  - reflexivity.
  - split; [reflexivity|].
    intros [|[|k]] d' Hd'; cbn in Hd'; [| |discriminate];
      injection Hd' as <-; repeat split; vm_compute; reflexivity.
Defined.

(** X12. Whatever the surroundings and however the run ends, every path that
    the run opens or writes to is the destination of a descriptor of
    [dashboard_list], as [os.path.join] gives it: no other path is ever
    passed to [open]. *)
Theorem only_destinations_are_opened E files e :
  e ∈ trace (main E (start files)).2 ->
  is_file_write e = true ->
  exists d,
    d ∈ dashboard_list
    /\ (e = OpenW (destination d)
        \/ exists data, e = WriteData (destination d) data).
Proof.
  intros Hin He.
  destruct (main_cases E files) as [[_ [line Hrun]]|(_ & _ & Hrun)];
    rewrite Hrun in Hin.
  - cbn in Hin. apply list_elem_of_singleton in Hin as ->. done.
  - destruct (for_each dashboard_list (process E) (start files))
      as [r w'] eqn:Hloop.
    cbn [snd] in Hin.
    destruct (loop_file_events E _ _ _ _ _ Hloop Hin)
      as [Hnil|(d & text & Hd & Hev)].
    + cbn in Hnil. by apply elem_of_nil in Hnil.
    + exists d. split; [done|]. unfold events_of in Hev.
      rewrite !elem_of_cons, elem_of_nil in Hev.
      destruct Hev as [-> | [-> | [-> | []]]]; [done|by left|right; by eexists].
Qed.

Lemma only_destinations_are_opened_witness :
  exists d,
    d ∈ dashboard_list
    /\ (OpenW (py "/grafana-dashboards/single_geth_eth.json")
        = OpenW (destination d)
        \/ exists data,
             OpenW (py "/grafana-dashboards/single_geth_eth.json")
             = WriteData (destination d) data).
Proof.
  apply (only_destinations_are_opened flaky_env sample_files).
  - apply list_elem_of_lookup. exists 1. reflexivity.
  - reflexivity.
Defined.

(** X13. No run ends with [SystemExit], whatever the surroundings: the call
    of [sys.exit] never takes place. A run ends with a [NameError] exactly
    when one of the two gates fails, the variable being unset or the
    directory unusable, and the name is then [sys]. *)
Theorem name_error_exactly_at_a_gate E files :
  (forall n, (main E (start files)).1 <> Raise (SystemExit n))
  /\ (forall x,
        (main E (start files)).1 = Raise (NameError x)
        <-> x = "sys"%string
            /\ (environ E !! py "GF_SECURITY_ADMIN_PASSWORD" = None
                \/ unusable files)).
Proof.
  destruct (main_cases E files) as [[Hgate [line ->]]|(Hc & Hd & ->)];
    cbn [fst].
  - split; [done|]. intros x. split.
    + intros Hx. by simplify_eq.
    + by intros [-> _].
  - destruct (for_each dashboard_list (process E) (start files))
      as [r w'] eqn:Hloop.
    apply loop_ends in Hloop as [Hname Hexit]. cbn [fst].
    split; [done|]. intros x. split; [by intros ?%Hname|].
    intros [_ [Hnone|Hbad]]; exfalso.
    + rewrite Hnone in Hc. by destruct Hc.
    + destruct Hbad as [Hb|[(wr & c & Hb)|Hb]]; by rewrite Hb in Hd.
Qed.

(** X14. Once both gates are passed, nothing is printed, however the run
    ends: a failure in the loop has no diagnostic of the script's own. *)
Theorem nothing_is_printed_past_the_gates E files line :
  is_Some (environ E !! py "GF_SECURITY_ADMIN_PASSWORD") ->
  files !! dashboard_path = Some (Dir true) ->
  Print line ∉ trace (main E (start files)).2.
Proof.
  intros Hc Hd. rewrite main_past_gates by done.
  destruct (for_each dashboard_list (process E) (start files)) as [r w'] eqn:Hrun.
  apply loop_trace in Hrun as (k & j & _ & _ & _ & _ & _ & Hpr).
  intros Hin. apply Hpr in Hin. cbn [start trace] in Hin.
  by apply elem_of_nil in Hin.
Qed.

Lemma nothing_is_printed_past_the_gates_witness :
  (main flaky_env (start sample_files)).1 = Raise URLError
  /\ Print (py "Dashboard path %s is not writable, exiting")
     ∉ trace (main flaky_env (start sample_files)).2.
Proof.
  split; [reflexivity|].
  apply (nothing_is_printed_past_the_gates flaky_env sample_files).
  - exists (py "secret"). reflexivity.
  - reflexivity.
Defined.

(** X15. Once both gates are passed, the events of a run are, in this order:
    for each of the first [m] descriptors of the list, the call of
    [urlopen], the opening of its destination and the write of the
    substitution of the text downloaded for it; then, if the run fails, the
    first events, one at least, of the next descriptor, and nothing after
    them. So [urlopen] is called once for each descriptor reached, a file is
    opened after its own download and before the next call, and nothing
    follows a failure. *)
Theorem events_follow_the_list E files :
  is_Some (environ E !! py "GF_SECURITY_ADMIN_PASSWORD") ->
  files !! dashboard_path = Some (Dir true) ->
  exists m texts k text,
    length texts = m /\ m <= length dashboard_list
    /\ (forall i d t, dashboard_list !! i = Some d -> texts !! i = Some t ->
          fetched E i d = Some t)
    /\ trace (main E (start files)).2
       = flat_map (fun dt => events_of dt.1 dt.2)
                  (zip (take m dashboard_list) texts)
         ++ take k (from_option (fun d => events_of d text) []
                                (dashboard_list !! m))
    /\ ((main E (start files)).1 = Return tt -> m = length dashboard_list)
    /\ (forall e, (main E (start files)).1 = Raise e ->
          m < length dashboard_list /\ 1 <= k <= 3).
Proof.
  intros Hc Hd. rewrite main_past_gates by done.
  destruct (for_each dashboard_list (process E) (start files))
    as [r w'] eqn:Hloop.
  apply loop_shape in Hloop
    as (m & texts & k & text & Hlen & Hm & Hf & Htr & Hend & Hexn).
  exists m, texts, k, text. cbn [fst snd].
  split_and!; [done|done| |done|done|done].
  intros i d t Hi Ht. by apply (Hf i).
Qed.

Lemma events_follow_the_list_witness :
  exists m texts k text,
    length texts = m /\ m <= length dashboard_list
    /\ (forall i d t, dashboard_list !! i = Some d -> texts !! i = Some t ->
          fetched flaky_env i d = Some t)
    /\ trace (main flaky_env (start sample_files)).2
       = flat_map (fun dt => events_of dt.1 dt.2)
                  (zip (take m dashboard_list) texts)
         ++ take k (from_option (fun d => events_of d text) []
                                (dashboard_list !! m))
    /\ ((main flaky_env (start sample_files)).1 = Return tt ->
        m = length dashboard_list)
    /\ (forall e, (main flaky_env (start sample_files)).1 = Raise e ->
          m < length dashboard_list /\ 1 <= k <= 3).
Proof.
  apply (events_follow_the_list flaky_env sample_files).
  - exists (py "secret"). reflexivity.
  - reflexivity.
Defined.

(** X16. The directory gate lets the run go on exactly when
    [dashboard_path] names a directory that can be written to, and whatever
    it finds it leaves the files as they are. *)
Theorem directory_gate_passes_exactly_when_usable w :
  ((directory_gate w).1 = Return tt
   <-> fs w !! dashboard_path = Some (Dir true))
  /\ fs (directory_gate w).2 = fs w.
Proof.
  destruct (directory_gate_cases w) as [[Hd ->]|[Hd ->]]; cbn [fst snd].
  - done.
  - split; [|done]. split; [done|]. intros Hdir. exfalso.
    destruct Hd as [Hd|[(wr & c & Hd)|Hd]]; by rewrite Hd in Hdir.
Qed.

(** ** Bytes that UTF-8 never uses *)

Lemma utf8_scan_stray pending acc least (body : bytes) b :
  b ∈ body -> (0xF8 <= Byte.to_N b)%N ->
  utf8_scan pending acc least body = None.
Proof.
  intros Hin Hb. revert pending acc least.
  induction body as [|c body IH]; intros pending acc least;
    [by apply elem_of_nil in Hin|].
  apply elem_of_cons in Hin as [<-|Hin].
  - cbn [utf8_scan]. destruct pending as [|k].
    + unfold utf8_lead.
      by repeat (rewrite (proj2 (N.ltb_ge _ _)) by lia).
    + rewrite (proj2 (N.ltb_ge (Byte.to_N b) 0xC0)) by lia.
      by rewrite andb_false_r.
  - specialize (IH Hin). cbn [utf8_scan]. destruct pending as [|k].
    + destruct (utf8_lead (Byte.to_N c)) as [[[[|n] bits] lo]|]; [| |done].
      * by rewrite IH.
      * apply IH.
    + repeat case_match; try done; by rewrite ?IH.
Qed.

(** X17. A body that holds one of the bytes 0xF8 to 0xFF, which no UTF-8
    text has, is not decoded: the loop body ends with [UnicodeDecodeError]
    after its request, and no file is opened or changed. *)
Theorem stray_byte_stops_the_descriptor E d w body b :
  net E (requests w) (url d) = Body body ->
  b ∈ body -> (0xF8 <= Byte.to_N b)%N ->
  process E d w
  = (Raise UnicodeDecodeError,
     {| fs := fs w; trace := trace w ++ [HttpGet (url d)];
        requests := S (requests w); opens := opens w |}).
Proof.
  intros Hnet Hin Hb.
  unfold process, bind, urlopen, decode_utf8, read, utf8_decode.
  by rewrite Hnet, (utf8_scan_stray _ _ _ _ b Hin Hb).
Qed.

Lemma stray_byte_stops_the_descriptor_witness :
  process garbled_env geth_opt (start sample_files)
  = (Raise UnicodeDecodeError,
     {| fs := sample_files; trace := [HttpGet (url geth_opt)];
        requests := 1; opens := 0 |}).
Proof.
  apply (stray_byte_stops_the_descriptor garbled_env geth_opt
           (start sample_files) [Byte.xff] Byte.xff).
  - reflexivity.
  - by left.
  - by vm_compute.
Defined.
